(** * Connection manager of the admin console: the two [useWebSocket] hooks

    The repository contains two near-duplicate React hooks that keep one
    WebSocket to the backend and publish its status in a zustand store:

    - [Backoff]: [src/hooks/useWebSocket.ts] with [stores/connectionStore.ts]
      (exponential back-off, at most 5 retries, statuses
      connected / disconnected / reconnecting / error);
    - [Fixed]: the alternate hook that works on [stores/appStore.ts]
      (fixed [reconnectInterval], configurable [maxReconnectAttempts],
      statuses connected / connecting / disconnected / error).

    Both are embedded as state transformers over an explicit model of the
    host: the heap of [WebSocket] objects created so far, the timers created
    by [setTimeout], the wall clock read by [new Date()], and the console.
    Everything runs on the single-threaded event loop, so one event (an API
    call, a socket event, a timer firing) is one atomic step. *)

From Stdlib Require Import Ascii.
From stdpp Require Import list strings numbers gmap pretty.

Local Open Scope Z_scope.

(** ** Exceptions *)

(** Result of evaluating a JavaScript expression that may throw. *)
Inductive Completion (A : Type) : Type :=
| Normal (a : A)
| Throw (e : string).
Arguments Normal {A} a.
Arguments Throw {A} e.

(** ** Built-ins of the browser that the hooks call

    These are not code of the repository: the development is parametric in
    them.  [JsValue] is the type of JavaScript values that travel as
    messages (TypeScript's [WebSocketMessage] is erased at run time: the
    result of [JSON.parse] is cast, never checked). *)
Class Browser := {
  JsValue : Type;
  (** [JSON.parse(text)]: the parsed value, or a [SyntaxError]. *)
  JSON_parse : string -> Completion JsValue;
  (** [JSON.stringify(value)]: may throw (cyclic structure, BigInt). *)
  JSON_stringify : JsValue -> Completion string;
  (** Whether [new WebSocket(url)] accepts the URL; it throws a
      [SyntaxError] otherwise. *)
  WebSocket_accepts : string -> bool
}.

(** ** The host platform: sockets, timers, clock, console *)
Module Platform.

(** [WebSocket.readyState]. *)
Inductive ReadyState := CONNECTING | OPEN | CLOSING | CLOSED.

Definition ReadyState_eqb (a b : ReadyState) : bool :=
  match a, b with
  | CONNECTING, CONNECTING | OPEN, OPEN | CLOSING, CLOSING | CLOSED, CLOSED => true
  | _, _ => false
  end.

(** A socket object: its URL, its ready state and the frames handed to
    [send] so far (oldest first). *)
Record WebSocket := mkWebSocket {
  url : string;
  readyState : ReadyState;
  outbox : list string
}.

Inductive TimerState := Pending | Fired | Cleared.

(** A timer created by [setTimeout(callback, delay)]; [due] is the clock
    value from which it may fire.  Each hook only ever installs one kind of
    callback, so the callback is not stored. *)
Record Timer := mkTimer {
  delay : Z;
  due : Z;
  tstate : TimerState
}.

Section Operations.
Context `{Browser}.

(** Calls made to the callbacks supplied by the component that uses the
    hook, in order. *)
Inductive Callback :=
| CbMessage (message : JsValue)
| CbOpen
| CbClose
| CbError.

(** The host.  Socket and timer handles are indices into [sockets] and
    [timers]; objects are never removed, a closed socket stays in the heap
    with state [CLOSED]. *)
Record Host := mkHost {
  sockets : list WebSocket;
  timers : list Timer;
  clock : Z;
  console : list string;
  calls : list Callback
}.

Definition with_sockets (l : list WebSocket) (h : Host) : Host :=
  mkHost l (timers h) (clock h) (console h) (calls h).
Definition with_timers (l : list Timer) (h : Host) : Host :=
  mkHost (sockets h) l (clock h) (console h) (calls h).
Definition with_clock (t : Z) (h : Host) : Host :=
  mkHost (sockets h) (timers h) t (console h) (calls h).

(** [console.error(text, e)]. *)
Definition console_error (text : string) (h : Host) : Host :=
  mkHost (sockets h) (timers h) (clock h) (console h ++ [text]) (calls h).

(** Invocation of a user callback. *)
Definition call (c : Callback) (h : Host) : Host :=
  mkHost (sockets h) (timers h) (clock h) (console h) (calls h ++ [c]).

(** [new WebSocket(url)]: a fresh object in state [CONNECTING], or an
    exception and no object. *)
Definition WebSocket_new (u : string) (h : Host) : Completion (nat * Host) :=
  if WebSocket_accepts u
  then Normal (length (sockets h),
               with_sockets (sockets h ++ [mkWebSocket u CONNECTING []]) h)
  else Throw "SyntaxError".

(** [ref.current?.readyState]. *)
Definition readyState_of (ref : option nat) (h : Host) : option ReadyState :=
  match ref with
  | Some id => readyState <$> sockets h !! id
  | None => None
  end.

(** [ref.current?.readyState === WebSocket.OPEN]. *)
Definition is_open (ref : option nat) (h : Host) : bool :=
  match readyState_of ref h with
  | Some OPEN => true
  | _ => false
  end.

Definition set_readyState (r : ReadyState) (w : WebSocket) : WebSocket :=
  mkWebSocket (url w) r (outbox w).

(** [ws.close()]: starts the closing handshake of an open socket and fails
    a connecting one; in both cases the state becomes [CLOSING] and the
    close event is delivered later.  No effect on a closing or closed
    socket. *)
Definition ws_close (id : nat) (h : Host) : Host :=
  match sockets h !! id with
  | Some w =>
      match readyState w with
      | CONNECTING | OPEN => with_sockets (<[id := set_readyState CLOSING w]> (sockets h)) h
      | CLOSING | CLOSED => h
      end
  | None => h
  end.

(** [ws.send(text)] on an open socket. *)
Definition ws_send (id : nat) (text : string) (h : Host) : Host :=
  match sockets h !! id with
  | Some w =>
      with_sockets
        (<[id := mkWebSocket (url w) (readyState w) (outbox w ++ [text])]> (sockets h)) h
  | None => h
  end.

(** The browser moves socket [id] to state [r]. *)
Definition ws_transition (id : nat) (r : ReadyState) (h : Host) : Host :=
  match sockets h !! id with
  | Some w => with_sockets (<[id := set_readyState r w]> (sockets h)) h
  | None => h
  end.

(** [setTimeout(callback, d)]: a negative delay counts as 0.  The handle
    returned is truthy (HTML: an integer greater than zero; Node: an
    object). *)
Definition setTimeout (d : Z) (h : Host) : nat * Host :=
  (length (timers h),
   with_timers (timers h ++ [mkTimer d (clock h + Z.max 0 d) Pending]) h).

(** [clearTimeout(handle)]: cancels a pending timer, no effect otherwise. *)
Definition clearTimeout (id : nat) (h : Host) : Host :=
  match timers h !! id with
  | Some t =>
      match tstate t with
      | Pending => with_timers (<[id := mkTimer (delay t) (due t) Cleared]> (timers h)) h
      | _ => h
      end
  | None => h
  end.

(** The timer has fired: it is no longer pending. *)
Definition timer_fired (id : nat) (h : Host) : Host :=
  match timers h !! id with
  | Some t => with_timers (<[id := mkTimer (delay t) (due t) Fired]> (timers h)) h
  | None => h
  end.

Definition is_pending (t : Timer) : bool :=
  match tstate t with Pending => true | _ => false end.

(** A socket is live until its close event has been delivered. *)
Definition is_live (w : WebSocket) : bool :=
  negb (ReadyState_eqb (readyState w) CLOSED).

Definition is_OPEN (w : WebSocket) : bool := ReadyState_eqb (readyState w) OPEN.

Definition b2n (b : bool) : nat := if b then 1%nat else 0%nat.

Definition count {A} (p : A -> bool) (l : list A) : nat := length (filter (fun x => p x = true) l).

Definition pending_timers (h : Host) : nat := count is_pending (timers h).
Definition live_sockets (h : Host) : nat := count is_live (sockets h).
Definition open_sockets (h : Host) : nat := count is_OPEN (sockets h).

(** What the event loop can deliver to a hook. *)
Inductive Event :=
| Call_connect                           (** the component calls [connect()] *)
| Call_disconnect                        (** the component calls [disconnect()] *)
| Call_send (message : JsValue)          (** the component calls [send(message)] *)
| Ev_open (id : nat)                     (** socket [id] finished its handshake *)
| Ev_message (id : nat) (data : string)  (** a text frame arrived on socket [id] *)
| Ev_fail (id : nat)                     (** socket [id] failed: error event, then close event *)
| Ev_close (id : nat)                    (** the connection of socket [id] closed: close event *)
| Ev_timer (id : nat)                    (** timer [id] fires *)
| Tick (d : N).                          (** [d] milliseconds pass *)

(** Guards of the events that the browser raises. *)
Definition can_open (id : nat) (h : Host) : bool :=
  match readyState_of (Some id) h with Some CONNECTING => true | _ => false end.
Definition can_receive (id : nat) (h : Host) : bool := is_open (Some id) h.
Definition can_close (id : nat) (h : Host) : bool :=
  match readyState_of (Some id) h with
  | Some CLOSED | None => false
  | Some _ => true
  end.
Definition can_fire (id : nat) (h : Host) : bool :=
  match timers h !! id with
  | Some t => is_pending t && (due t <=? clock h)
  | None => false
  end.

(** Events raised by the browser, as opposed to calls of the hook's API
    and the passing of time. *)
Definition is_browser_event (e : Event) : bool :=
  match e with
  | Ev_open _ | Ev_message _ _ | Ev_fail _ | Ev_close _ | Ev_timer _ => true
  | Call_connect | Call_disconnect | Call_send _ | Tick _ => false
  end.

Definition is_Ev_open (e : Event) : bool :=
  match e with Ev_open _ => true | _ => false end.
Definition is_Ev_timer (e : Event) : bool :=
  match e with Ev_timer _ => true | _ => false end.
Definition is_Call_connect (e : Event) : bool :=
  match e with Call_connect => true | _ => false end.

(** Nothing is left that could raise an event: every socket has delivered
    its close event and no timer is pending. *)
Definition quiescent (h : Host) : Prop :=
  live_sockets h = 0%nat /\ pending_timers h = 0%nat.

(** Order on [Date | null] values: [null] before every date. *)
Definition date_le (a b : option Z) : Prop :=
  match a, b with
  | None, _ => True
  | Some _, None => False
  | Some x, Some y => x <= y
  end.

End Operations.

Arguments with_sockets {_} l h /.
Arguments with_timers {_} l h /.
Arguments with_clock {_} t h /.
Arguments console_error {_} text h /.
Arguments call {_} c h /.
Arguments count {A} p l : simpl never.

End Platform.

(** ** The hook of [src/hooks/useWebSocket.ts] over [stores/connectionStore.ts]

    The effect of this hook calls [connect()] when the component mounts and
    [disconnect()] when it unmounts or when the URL changes; like the calls
    made by the component itself, these are the events [Call_connect] and
    [Call_disconnect]. *)
Module Backoff.
Import Platform.

(** [type ConnectionStatus = 'connected' | 'disconnected' | 'reconnecting' | 'error'] *)
Inductive ConnectionStatus := connected | disconnected | reconnecting | error.

(** The string literal each status is at run time. *)
Definition status_name (c : ConnectionStatus) : string :=
  match c with
  | connected => "connected"
  | disconnected => "disconnected"
  | reconnecting => "reconnecting"
  | error => "error"
  end.

(** The data fields of [ConnectionState] in [connectionStore.ts];
    [lastSync] is a [Date], kept as milliseconds. *)
Record Store := mkStore {
  status : ConnectionStatus;
  lastSync : option Z;
  errorMessage : option string
}.

Section Hook.
Context `{Browser}.

(** What the component passes in and what the hook reads from
    [configStore]: the URL, and the optional [onMessage] handler, which
    returns or throws. *)
Record Options := mkOptions {
  wsBaseUrl : string;
  onMessage : option (JsValue -> Completion unit)
}.

(** The hook instance: the three [useRef] cells, the store, the host it
    runs on, and the list of statuses passed to [setStatus] so far. *)
Record State := mkState {
  host : Host;
  wsRef : option nat;
  reconnectTimeoutRef : option nat;
  reconnectAttempts : Z;
  store : Store;
  statusLog : list ConnectionStatus
}.

Definition with_host (h : Host) (s : State) : State :=
  mkState h (wsRef s) (reconnectTimeoutRef s) (reconnectAttempts s) (store s) (statusLog s).
Definition with_wsRef (r : option nat) (s : State) : State :=
  mkState (host s) r (reconnectTimeoutRef s) (reconnectAttempts s) (store s) (statusLog s).
Definition with_reconnectTimeoutRef (r : option nat) (s : State) : State :=
  mkState (host s) (wsRef s) r (reconnectAttempts s) (store s) (statusLog s).
Definition with_reconnectAttempts (n : Z) (s : State) : State :=
  mkState (host s) (wsRef s) (reconnectTimeoutRef s) n (store s) (statusLog s).

(** [setStatus: (status) => set({ status })] *)
Definition setStatus (c : ConnectionStatus) (s : State) : State :=
  mkState (host s) (wsRef s) (reconnectTimeoutRef s) (reconnectAttempts s)
    (mkStore c (lastSync (store s)) (errorMessage (store s)))
    (statusLog s ++ [c]).

(** [setLastSync: (date) => set({ lastSync: date })] *)
Definition setLastSync (date : Z) (s : State) : State :=
  mkState (host s) (wsRef s) (reconnectTimeoutRef s) (reconnectAttempts s)
    (mkStore (status (store s)) (Some date) (errorMessage (store s)))
    (statusLog s).

(** [setError: (message) => set({ errorMessage: message })] *)
Definition setError (message : option string) (s : State) : State :=
  mkState (host s) (wsRef s) (reconnectTimeoutRef s) (reconnectAttempts s)
    (mkStore (status (store s)) (lastSync (store s)) message)
    (statusLog s).

(** [const maxReconnectAttempts = 5] *)
Definition maxReconnectAttempts : Z := 5.

(** [Math.min(1000 * Math.pow(2, n), 30000)] *)
Definition backoff_delay (n : Z) : Z := Z.min (1000 * 2 ^ n) 30000.

Variable opts : Options.

(** [connect]: nothing to do when the current socket is open; otherwise a
    new socket is created and stored in [wsRef] (the four handlers are
    attached to it: see [step]).  The previous socket, if any, is neither
    closed nor detached. *)
Definition connect (s : State) : State :=
  if is_open (wsRef s) (host s) then s
  else
    match WebSocket_new (wsBaseUrl opts) (host s) with
    | Normal (id, h) => with_wsRef (Some id) (with_host h s)
    | Throw _ =>
        setError (Some "Failed to create WebSocket connection") (setStatus error s)
    end.

(** [attemptReconnect] *)
Definition attemptReconnect (s : State) : State :=
  if maxReconnectAttempts <=? reconnectAttempts s then
    setError (Some "Max reconnection attempts reached") (setStatus error s)
  else
    let s := setStatus reconnecting s in
    let s := with_reconnectAttempts (reconnectAttempts s + 1) s in
    let delay := backoff_delay (reconnectAttempts s) in
    let '(id, h) := setTimeout delay (host s) in
    with_reconnectTimeoutRef (Some id) (with_host h s).

(** [ws.onopen] *)
Definition onopen (s : State) : State :=
  let s := setStatus connected s in
  let s := setError None s in
  let s := setLastSync (clock (host s)) s in
  with_reconnectAttempts 0 s.

(** [ws.onmessage]: the whole body is inside [try]; a throwing handler is
    caught like a parse failure. *)
Definition onmessage (data : string) (s : State) : State :=
  match JSON_parse data with
  | Normal message =>
      let s := setLastSync (clock (host s)) s in
      match onMessage opts with
      | Some handler =>
          let s := with_host (call (CbMessage message) (host s)) s in
          match handler message with
          | Normal _ => s
          | Throw _ => with_host (console_error "Failed to parse WebSocket message:" (host s)) s
          end
      | None => s
      end
  | Throw _ => with_host (console_error "Failed to parse WebSocket message:" (host s)) s
  end.

(** [ws.onclose] *)
Definition onclose (s : State) : State :=
  attemptReconnect (setStatus disconnected s).

(** [ws.onerror] *)
Definition onerror (s : State) : State :=
  setError (Some "WebSocket connection failed") (setStatus error s).

(** The callback given to [setTimeout] in [attemptReconnect]. *)
Definition on_timer (s : State) : State := connect s.

(** [disconnect]: [wsRef] keeps pointing at the socket. *)
Definition disconnect (s : State) : State :=
  let s :=
    match reconnectTimeoutRef s with
    | Some t => with_host (clearTimeout t (host s)) s
    | None => s
    end in
  let s :=
    match wsRef s with
    | Some id => with_host (ws_close id (host s)) s
    | None => s
    end in
  setStatus disconnected s.

(** [send]: the result is what the caller sees, a normal return or the
    exception of [JSON.stringify]. *)
Definition send (message : JsValue) (s : State) : Completion State :=
  if is_open (wsRef s) (host s) then
    match JSON_stringify message with
    | Normal text =>
        match wsRef s with
        | Some id => Normal (with_host (ws_send id text (host s)) s)
        | None => Normal s
        end
    | Throw e => Throw e
    end
  else Normal s.

(** State of the hook when the component mounts at clock [t0]; the store
    starts as [connectionStore.ts] creates it. *)
Definition init (t0 : Z) : State :=
  mkState (mkHost [] [] t0 [] []) None None 0 (mkStore disconnected None None) [].

(** One turn of the event loop.  [None]: the browser cannot raise this
    event in this state.  Every socket in the heap was created by
    [connect], so it carries the four handlers. *)
Definition step (s : State) (e : Event) : option State :=
  match e with
  | Call_connect => Some (connect s)
  | Call_disconnect => Some (disconnect s)
  | Call_send m =>
      match send m s with
      | Normal s' => Some s'
      | Throw _ => Some s
      end
  | Ev_open id =>
      if can_open id (host s)
      then Some (onopen (with_host (ws_transition id OPEN (host s)) s))
      else None
  | Ev_message id data =>
      if can_receive id (host s) then Some (onmessage data s) else None
  | Ev_fail id =>
      if can_close id (host s)
      then Some (onclose (onerror (with_host (ws_transition id CLOSED (host s)) s)))
      else None
  | Ev_close id =>
      if can_close id (host s)
      then Some (onclose (with_host (ws_transition id CLOSED (host s)) s))
      else None
  | Ev_timer id =>
      if can_fire id (host s)
      then Some (on_timer (with_host (timer_fired id (host s)) s))
      else None
  | Tick d => Some (with_host (with_clock (clock (host s) + Z.of_N d) (host s)) s)
  end.

Fixpoint run (s : State) (es : list Event) : option State :=
  match es with
  | [] => Some s
  | e :: es' =>
      match step s e with
      | Some s' => run s' es'
      | None => None
      end
  end.

(** States the hook can be in. *)
Definition reachable (s : State) : Prop :=
  exists t0 es, run (init t0) es = Some s.

(** The last-sync time is a reading of the clock, so it is never ahead of
    it. *)
Definition sync_inv (s : State) : Prop :=
  date_le (lastSync (store s)) (Some (clock (host s))).

(** Attempt [k] is under way: socket [k] is the current one and is
    connecting, no other socket is live, no timer is pending, and the
    counter is [k]. *)
Definition attempting (k : nat) (s : State) : Prop :=
  length (sockets (host s)) = S k
  /\ readyState_of (Some k) (host s) = Some CONNECTING
  /\ live_sockets (host s) = 1%nat
  /\ length (timers (host s)) = k
  /\ pending_timers (host s) = 0%nat
  /\ wsRef s = Some k
  /\ reconnectAttempts s = Z.of_nat k.

(** Upper bound on the number of retry timers that can still fire before a
    socket opens: the timers already pending, and the retries left in the
    budget. *)
Definition retry_budget (s : State) : nat :=
  (pending_timers (host s) + Z.to_nat (maxReconnectAttempts - reconnectAttempts s))%nat.

(** Scenario building blocks.  Sockets and timers are numbered in creation
    order; in a run where every attempt fails, retry [k] is timer [k] and
    creates socket [k + 1].  One round: socket [k] fails to open, the
    back-off delay of the retry passes, the retry timer fires. *)
Definition retry_round (k : nat) : list Event :=
  [Ev_fail k; Tick (Z.to_N (backoff_delay (Z.of_nat k + 1))); Ev_timer k].

Fixpoint retry_rounds (k n : nat) : list Event :=
  match n with
  | O => []
  | S n' => retry_round k ++ retry_rounds (S k) n'
  end.

(** [connect()] followed by [n] consecutive failures to open, stopping
    right after the last failure. *)
Definition failed_opens (n : nat) : list Event :=
  match n with
  | O => [Call_connect]
  | S m => Call_connect :: retry_rounds 0 m ++ [Ev_fail m]
  end.

(** [connect()], [n] failures to open, then a successful open. *)
Definition fails_then_opens (n : nat) : list Event :=
  Call_connect :: retry_rounds 0 n ++ [Ev_open n].

End Hook.

Arguments with_host {_} h s /.
Arguments with_wsRef {_} r s /.
Arguments with_reconnectTimeoutRef {_} r s /.
Arguments with_reconnectAttempts {_} n s /.
Arguments setStatus {_} c s /.
Arguments setLastSync {_} date s /.
Arguments setError {_} message s /.

End Backoff.

(** ** The alternate hook, over [stores/appStore.ts]

    Its effect only calls [disconnect()] on unmount; [connect()] is called
    by the component (the settings page). *)
Module Fixed.
Import Platform.

(** [type ConnectionStatus = 'connected' | 'connecting' | 'disconnected' | 'error'] *)
Inductive ConnectionStatus := connected | connecting | disconnected | error.

Definition status_name (c : ConnectionStatus) : string :=
  match c with
  | connected => "connected"
  | connecting => "connecting"
  | disconnected => "disconnected"
  | error => "error"
  end.

(** The connection fields of [AppState]; there is no error message in this
    store. *)
Record Store := mkStore {
  connectionStatus : ConnectionStatus;
  lastSyncTime : option Z
}.

Section Hook.
Context `{Browser}.

(** [UseWebSocketOptions] and [config.wsUrl].  [onOpen], [onClose] and
    [onError] are recorded as present or absent: they are taken to return
    normally and not to call back into the hook. *)
Record Options := mkOptions {
  wsUrl : string;
  onMessage : option (JsValue -> Completion unit);
  onOpen : bool;
  onClose : bool;
  onError : bool;
  reconnectInterval : Z;
  maxReconnectAttempts : Z
}.

(** The defaults of the destructuring: [reconnectInterval = 3000],
    [maxReconnectAttempts = 5], no callbacks, the default URL of
    [appStore.ts]. *)
Definition default_options : Options :=
  mkOptions "ws://localhost:8000/ws" None false false false 3000 5.

Record State := mkState {
  host : Host;
  wsRef : option nat;
  reconnectAttemptsRef : Z;
  reconnectTimeoutRef : option nat;
  store : Store;
  statusLog : list ConnectionStatus
}.

Definition with_host (h : Host) (s : State) : State :=
  mkState h (wsRef s) (reconnectAttemptsRef s) (reconnectTimeoutRef s) (store s) (statusLog s).
Definition with_wsRef (r : option nat) (s : State) : State :=
  mkState (host s) r (reconnectAttemptsRef s) (reconnectTimeoutRef s) (store s) (statusLog s).
Definition with_reconnectAttemptsRef (n : Z) (s : State) : State :=
  mkState (host s) (wsRef s) n (reconnectTimeoutRef s) (store s) (statusLog s).
Definition with_reconnectTimeoutRef (r : option nat) (s : State) : State :=
  mkState (host s) (wsRef s) (reconnectAttemptsRef s) r (store s) (statusLog s).

(** [setConnectionStatus: (status) => set({ connectionStatus: status })] *)
Definition setConnectionStatus (c : ConnectionStatus) (s : State) : State :=
  mkState (host s) (wsRef s) (reconnectAttemptsRef s) (reconnectTimeoutRef s)
    (mkStore c (lastSyncTime (store s)))
    (statusLog s ++ [c]).

(** [setLastSyncTime: (time) => set({ lastSyncTime: time })] *)
Definition setLastSyncTime (time : Z) (s : State) : State :=
  mkState (host s) (wsRef s) (reconnectAttemptsRef s) (reconnectTimeoutRef s)
    (mkStore (connectionStatus (store s)) (Some time))
    (statusLog s).

(** [callback?.()] *)
Definition call_if (present : bool) (c : Callback) (s : State) : State :=
  if present then with_host (call c (host s)) s else s.

Variable opts : Options.

(** [connect] *)
Definition connect (s : State) : State :=
  if is_open (wsRef s) (host s) then s
  else
    let s := setConnectionStatus connecting s in
    match WebSocket_new (wsUrl opts) (host s) with
    | Normal (id, h) => with_wsRef (Some id) (with_host h s)
    | Throw _ =>
        let s := setConnectionStatus error s in
        with_host (console_error "WebSocket connection error:" (host s)) s
    end.

(** [ws.onopen] *)
Definition onopen (s : State) : State :=
  let s := setConnectionStatus connected s in
  let s := setLastSyncTime (clock (host s)) s in
  let s := with_reconnectAttemptsRef 0 s in
  call_if (onOpen opts) CbOpen s.

(** [ws.onmessage] *)
Definition onmessage (data : string) (s : State) : State :=
  match JSON_parse data with
  | Normal message =>
      let s := setLastSyncTime (clock (host s)) s in
      match onMessage opts with
      | Some handler =>
          let s := with_host (call (CbMessage message) (host s)) s in
          match handler message with
          | Normal _ => s
          | Throw _ => with_host (console_error "Failed to parse WebSocket message:" (host s)) s
          end
      | None => s
      end
  | Throw _ => with_host (console_error "Failed to parse WebSocket message:" (host s)) s
  end.

(** [ws.onclose] *)
Definition onclose (s : State) : State :=
  let s := setConnectionStatus disconnected s in
  let s := call_if (onClose opts) CbClose s in
  if reconnectAttemptsRef s <? maxReconnectAttempts opts then
    let '(id, h) := setTimeout (reconnectInterval opts) (host s) in
    with_reconnectTimeoutRef (Some id) (with_host h s)
  else s.

(** The callback given to [setTimeout] in [onclose]:
    [reconnectAttemptsRef.current++; connect()]. *)
Definition on_timer (s : State) : State :=
  connect (with_reconnectAttemptsRef (reconnectAttemptsRef s + 1) s).

(** [ws.onerror] *)
Definition onerror (s : State) : State :=
  let s := setConnectionStatus error s in
  call_if (onError opts) CbError s.

(** [disconnect] *)
Definition disconnect (s : State) : State :=
  let s :=
    match reconnectTimeoutRef s with
    | Some t => with_host (clearTimeout t (host s)) s
    | None => s
    end in
  let s :=
    match wsRef s with
    | Some id => with_wsRef None (with_host (ws_close id (host s)) s)
    | None => s
    end in
  setConnectionStatus disconnected s.

(** [send] *)
Definition send (message : JsValue) (s : State) : Completion State :=
  if is_open (wsRef s) (host s) then
    match JSON_stringify message with
    | Normal text =>
        match wsRef s with
        | Some id => Normal (with_host (ws_send id text (host s)) s)
        | None => Normal s
        end
    | Throw e => Throw e
    end
  else Normal s.

(** State of the hook when the component mounts at clock [t0]. *)
Definition init (t0 : Z) : State :=
  mkState (mkHost [] [] t0 [] []) None 0 None (mkStore disconnected None) [].

(** One turn of the event loop, as for the other hook. *)
Definition step (s : State) (e : Event) : option State :=
  match e with
  | Call_connect => Some (connect s)
  | Call_disconnect => Some (disconnect s)
  | Call_send m =>
      match send m s with
      | Normal s' => Some s'
      | Throw _ => Some s
      end
  | Ev_open id =>
      if can_open id (host s)
      then Some (onopen (with_host (ws_transition id OPEN (host s)) s))
      else None
  | Ev_message id data =>
      if can_receive id (host s) then Some (onmessage data s) else None
  | Ev_fail id =>
      if can_close id (host s)
      then Some (onclose (onerror (with_host (ws_transition id CLOSED (host s)) s)))
      else None
  | Ev_close id =>
      if can_close id (host s)
      then Some (onclose (with_host (ws_transition id CLOSED (host s)) s))
      else None
  | Ev_timer id =>
      if can_fire id (host s)
      then Some (on_timer (with_host (timer_fired id (host s)) s))
      else None
  | Tick d => Some (with_host (with_clock (clock (host s) + Z.of_N d) (host s)) s)
  end.

Fixpoint run (s : State) (es : list Event) : option State :=
  match es with
  | [] => Some s
  | e :: es' =>
      match step s e with
      | Some s' => run s' es'
      | None => None
      end
  end.

Definition reachable (s : State) : Prop :=
  exists t0 es, run (init t0) es = Some s.

Definition sync_inv (s : State) : Prop :=
  date_le (lastSyncTime (store s)) (Some (clock (host s))).

Definition attempting (k : nat) (s : State) : Prop :=
  length (sockets (host s)) = S k
  /\ readyState_of (Some k) (host s) = Some CONNECTING
  /\ live_sockets (host s) = 1%nat
  /\ length (timers (host s)) = k
  /\ pending_timers (host s) = 0%nat
  /\ wsRef s = Some k
  /\ reconnectAttemptsRef s = Z.of_nat k.

(** Scenario building blocks, as for the other hook; the time that passes
    before the retry is [reconnectInterval]. *)
Definition retry_round (k : nat) : list Event :=
  [Ev_fail k; Tick (Z.to_N (reconnectInterval opts)); Ev_timer k].

Fixpoint retry_rounds (k n : nat) : list Event :=
  match n with
  | O => []
  | S n' => retry_round k ++ retry_rounds (S k) n'
  end.

Definition failed_opens (n : nat) : list Event :=
  match n with
  | O => [Call_connect]
  | S m => Call_connect :: retry_rounds 0 m ++ [Ev_fail m]
  end.

Definition fails_then_opens (n : nat) : list Event :=
  Call_connect :: retry_rounds 0 n ++ [Ev_open n].

(** The user callbacks that a failed connection triggers. *)
Definition failure_callbacks : list Callback :=
  (if onError opts then [CbError] else [])
  ++ (if onClose opts then [CbClose] else []).

(** Upper bound on the number of retry timers that can still fire without
    a new [connect()] call or a successful open: the retries left in the
    budget beyond the current one, the timers already pending, and, while
    the budget is not exhausted, the live sockets whose close will schedule
    one. *)
Definition retry_budget (s : State) : nat :=
  let spare := Z.to_nat (maxReconnectAttempts opts - reconnectAttemptsRef s - 1) in
  let closing :=
    if reconnectAttemptsRef s <? maxReconnectAttempts opts
    then live_sockets (host s) else 0%nat in
  (spare + pending_timers (host s) + closing)%nat.

End Hook.

Arguments with_host {_} h s /.
Arguments with_wsRef {_} r s /.
Arguments with_reconnectAttemptsRef {_} n s /.
Arguments with_reconnectTimeoutRef {_} r s /.
Arguments setConnectionStatus {_} c s /.
Arguments setLastSyncTime {_} time s /.
Arguments call_if {_} present c s /.

End Fixed.

(** ** A concrete browser for running scenarios

    Text frames that start with an opening brace parse (to themselves),
    everything else is a syntax error; every value serialises; every URL is
    accepted. *)
Module Scenario.
Import Platform.

Definition parse_text (text : string) : Completion string :=
  match text with
  | String "{"%char _ => Normal text
  | _ => Throw "SyntaxError"
  end.

Definition browser : Browser := {|
  JsValue := string;
  JSON_parse := parse_text;
  JSON_stringify := fun v => Normal v;
  WebSocket_accepts := fun _ => true
|}.

Definition backoff_options : @Backoff.Options browser :=
  @Backoff.mkOptions browser "ws://localhost:8000/ws" None.

Definition fixed_options : @Fixed.Options browser := @Fixed.default_options browser.

(** Runs from a fresh mount at clock 0. *)
Definition backoff_run (es : list (@Event browser)) : option (@Backoff.State browser) :=
  @Backoff.run browser backoff_options (@Backoff.init browser 0) es.

Definition fixed_run (es : list (@Event browser)) : option (@Fixed.State browser) :=
  @Fixed.run browser fixed_options (@Fixed.init browser 0) es.

(** The hooks right after their first socket has opened. *)
Definition backoff_connected : @Backoff.State browser :=
  default (@Backoff.init browser 0) (backoff_run [Call_connect; Ev_open 0%nat]).

Definition fixed_connected : @Fixed.State browser :=
  default (@Fixed.init browser 0) (fixed_run [Call_connect; Ev_open 0%nat]).

(** The status sequence that the two-failures-then-success scenario is
    expected to show, as status literals. *)
Definition expected_status_sequence : list string :=
  ["connecting"; "reconnecting"; "connecting"; "reconnecting"; "connecting"; "connected"].

End Scenario.

(** ** The zustand store of [stores/appStore.ts] and the theme code on it *)
Module AppStore.

(** [AppState]: the configuration object and the connection fields.  The
    configuration is kept as the JavaScript object it is, a finite map from
    property names to strings; its three properties are [apiBaseUrl],
    [wsUrl] and [theme]. *)
Record AppState := mkAppState {
  config : gmap string string;
  connection : Fixed.Store
}.

(** The state the store is created with. *)
Definition initial : AppState :=
  mkAppState
    (<["apiBaseUrl" := "http://localhost:8000"]>
       (<["wsUrl" := "ws://localhost:8000/ws"]>
          (<["theme" := "dark"]> ∅)))
    (Fixed.mkStore Fixed.disconnected None).

(** [setConfig: (newConfig) => set((state) => ({ config: { ...state.config,
    ...newConfig } }))]: the object spread keeps the old properties and lets
    those of [newConfig] win. *)
Definition setConfig (newConfig : gmap string string) (st : AppState) : AppState :=
  mkAppState (newConfig ∪ config st) (connection st).

(** [toggleTheme] of the dashboard layout:
    [setConfig({ theme: config.theme === 'dark' ? 'light' : 'dark' })]. *)
Definition toggleTheme (st : AppState) : AppState :=
  setConfig
    {["theme" := if decide (config st !! "theme" = Some "dark") then "light" else "dark"]}
    st.

(** The theme effect of the layout (and of [ThemeProvider]) on the class
    list of the root element, for a theme of its type
    ['light' | 'dark' | 'system']: remove [light] and [dark], then add the
    theme, or for [system] what the media query
    [(prefers-color-scheme: dark)] says. *)
Definition apply_theme (theme : string) (prefers_dark : bool)
    (classList : gset string) : gset string :=
  let classList := classList ∖ ({["light"]} ∪ {["dark"]}) in
  if decide (theme = "system")
  then classList ∪ {[if prefers_dark then "dark" else "light"]}
  else classList ∪ {[theme]}.

End AppStore.

(** ** The logs page that follows the hook in [src/hooks/useWebSocket.ts] *)
Module LogsPage.

(** [LogEntry['level']]: ['info' | 'warn' | 'error']. *)
Inductive Level := info | warn | error.

Definition level_name (l : Level) : string :=
  match l with
  | info => "info"
  | warn => "warn"
  | error => "error"
  end.

Definition Level_eqb (a b : Level) : bool :=
  match a, b with
  | info, info | warn, warn | error, error => true
  | _, _ => false
  end.

(** [type LogLevel = 'all' | 'info' | 'warn' | 'error'] *)
Inductive LogLevel := all | only (l : Level).

(** Values in the [details] of the demo entries. *)
Inductive DetailValue := DString (s : string) | DNumber (n : Z).

Record LogEntry := mkLogEntry {
  id : string;
  timestamp : string;
  level : Level;
  message : string;
  details : option (list (string * DetailValue))
}.

Section Page.

(** Built-ins: [String.prototype.toLowerCase], [s.includes(part)] and
    [new Date(ms).toISOString()]. *)
Variable toLowerCase : string -> string.
Variable includes : string -> string -> bool.
Variable toISOString : Z -> string.

(** The predicate given to [logs.filter]; the empty string is falsy, so
    [!debouncedFilter] is emptiness. *)
Definition matches (levelFilter : LogLevel) (debouncedFilter : string)
    (log : LogEntry) : bool :=
  let matchesLevel :=
    match levelFilter with
    | all => true
    | only l => Level_eqb (level log) l
    end in
  let matchesText :=
    String.eqb debouncedFilter ""
    || includes (toLowerCase (message log)) (toLowerCase debouncedFilter)
    || includes (toLowerCase (id log)) (toLowerCase debouncedFilter) in
  matchesLevel && matchesText.

(** [filteredLogs]; [logs] is undefined until the first fetch succeeds. *)
Definition filteredLogs (logs : option (list LogEntry)) (levelFilter : LogLevel)
    (debouncedFilter : string) : list LogEntry :=
  match logs with
  | None => []
  | Some l => List.filter (matches levelFilter debouncedFilter) l
  end.

(** [toggleExpanded]: a copy of the set with [id] removed if present, added
    otherwise. *)
Definition toggleExpanded (id : string) (expandedLogs : gset string) : gset string :=
  if decide (id ∈ expandedLogs) then expandedLogs ∖ {[id]} else expandedLogs ∪ {[id]}.

(** [{ info: 0, warn: 0, error: 0 }] *)
Definition zero_counts : gmap string nat :=
  <["info" := 0%nat]> (<["warn" := 0%nat]> (<["error" := 0%nat]> ∅)).

(** The reducer of [levelCounts]:
    [acc[log.level] = (acc[log.level] || 0) + 1]. *)
Definition count_level (acc : gmap string nat) (log : LogEntry) : gmap string nat :=
  <[level_name (level log) := (default 0%nat (acc !! level_name (level log)) + 1)%nat]> acc.

Definition levelCounts (logs : option (list LogEntry)) : gmap string nat :=
  match logs with
  | None => zero_counts
  | Some l => foldl count_level zero_counts l
  end.

(** Number of entries of a level. *)
Definition with_level (lv : Level) (l : list LogEntry) : nat :=
  length (List.filter (fun log => Level_eqb (level log) lv) l).

Definition demoLevels : list Level := [info; warn; error].

Definition demoMessages : list string :=
  ["WebSocket connection established";
   "Query execution slow (>100ms)";
   "Failed to parse incoming message";
   "Schema refresh completed";
   "Memory cluster activation spike detected"].

(** Entry [i] of the demo logs, [now] being [Date.now()].  The two indexed
    reads are always in range. *)
Definition demo_log (now : Z) (i : nat) : LogEntry :=
  mkLogEntry
    ("log-" +:+ pretty i)
    (toISOString (now - Z.of_nat i * 60000))
    (default info (demoLevels !! (i mod 3)%nat))
    (default "" (demoMessages !! (i mod 5)%nat))
    (if (i mod 2 =? 0)%nat
     then Some [("query", DString "SELECT * FROM memories");
                ("duration_ms", DNumber (45 + Z.of_nat i * 10))]
     else None).

(** [displayLogs]: the filtered logs, or twenty demo entries when there are
    none. *)
Definition displayLogs (now : Z) (filtered : list LogEntry) : list LogEntry :=
  if (0 <? length filtered)%nat then filtered
  else map (demo_log now) (seq 0 20).

End Page.
End LogsPage.

(** ** The message handler of [components/layout/DashboardLayout.tsx] *)
Module Dashboard.
Import Platform.

(** Values that [JSON.parse] produces.  A number is kept as its text; an
    object as its properties in order, each name once. *)
#[warnings="-register-all"]
Inductive Json :=
| JNull
| JBool (b : bool)
| JNumber (text : string)
| JString (s : string)
| JArray (items : list Json)
| JObject (properties : list (string * Json)).

Fixpoint property (name : string) (properties : list (string * Json)) : option Json :=
  match properties with
  | [] => None
  | (k, v) :: rest => if String.eqb k name then Some v else property name rest
  end.

(** [message.type === literal]: reading a property of [null] throws a
    [TypeError]; on every other value the read gives the property or
    [undefined], and strict equality holds for the same string only. *)
Definition type_is (message : Json) (literal : string) : Completion bool :=
  match message with
  | JNull => Throw "TypeError"
  | JObject properties =>
      Normal match property "type" properties with
             | Some (JString s) => String.eqb s literal
             | _ => false
             end
  | _ => Normal false
  end.

(** The handler, as the list of query keys it passes to
    [queryClient.invalidateQueries], in order. *)
Definition invalidations (message : Json) : Completion (list (list string)) :=
  match type_is message "data_update" with
  | Throw e => Throw e
  | Normal is_data =>
      match type_is message "log" with
      | Throw e => Throw e
      | Normal is_log =>
          match type_is message "brain_update" with
          | Throw e => Throw e
          | Normal is_brain =>
              Normal ((if is_data then [["query"]] else [])
                      ++ (if is_log then [["logs"]] else [])
                      ++ (if is_brain then [["brain"]] else []))
          end
      end
  end.

Section Layout.

(** The browser, with [Json] for the values. *)
Variable parse : string -> Completion Json.
Variable stringify : Json -> Completion string.
Variable accepts : string -> bool.

Definition browser : Browser := {|
  JsValue := Json;
  JSON_parse := parse;
  JSON_stringify := stringify;
  WebSocket_accepts := accepts
|}.

(** The handler as the hook sees it. *)
Definition onMessage (message : Json) : Completion unit :=
  match invalidations message with
  | Normal _ => Normal tt
  | Throw e => Throw e
  end.

(** [useWebSocket((message) => ...)] of the layout. *)
Definition options (wsBaseUrl : string) : @Backoff.Options browser :=
  @Backoff.mkOptions browser wsBaseUrl (Some onMessage).

(** The hook as the layout uses it. *)
Definition State : Type := @Backoff.State browser.

Definition step (wsBaseUrl : string) (s : State) (e : @Event browser) : option State :=
  @Backoff.step browser (options wsBaseUrl) s e.

(** The invalidations made by the handler calls recorded in the host. *)
Definition invalidated (h : @Host browser) : list (list string) :=
  flat_map
    (fun c : @Callback browser =>
       match c with
       | @CbMessage _ message =>
           match invalidations message with
           | Normal keys => keys
           | Throw _ => []
           end
       | _ => []
       end)
    (@calls browser h).

End Layout.
End Dashboard.

(** ** Concrete states and data for running the code *)
Module Samples.
Import Platform.

(** A retry is pending and no socket is live: the first socket failed. *)
Definition backoff_retrying : @Backoff.State Scenario.browser :=
  default (@Backoff.init Scenario.browser 0)
    (Scenario.backoff_run [Call_connect; Ev_fail 0%nat]).

Definition fixed_retrying : @Fixed.State Scenario.browser :=
  default (@Fixed.init Scenario.browser 0)
    (Scenario.fixed_run [Call_connect; Ev_fail 0%nat]).

(** The retries are used up. *)
Definition backoff_exhausted : @Backoff.State Scenario.browser :=
  default (@Backoff.init Scenario.browser 0)
    (Scenario.backoff_run (Backoff.failed_opens 6)).

(** The component has reconnected by hand while a retry was pending; the
    new socket is open and the retry is due. *)
Definition backoff_stale_retry : @Backoff.State Scenario.browser :=
  default (@Backoff.init Scenario.browser 0)
    (Scenario.backoff_run
       [Call_connect; Ev_fail 0%nat; Call_connect; Ev_open 1%nat; Tick 2000]).

(** Lower-casing and substring search for ASCII text. *)
Definition lower_char (c : ascii) : ascii :=
  let n := nat_of_ascii c in
  if (65 <=? n)%nat && (n <=? 90)%nat then ascii_of_nat (n + 32) else c.

Fixpoint lower (s : string) : string :=
  match s with
  | EmptyString => EmptyString
  | String c rest => String (lower_char c) (lower rest)
  end.

Definition contains (s part : string) : bool :=
  match String.index 0 part s with
  | Some _ => true
  | None => false
  end.

Definition logs : list LogsPage.LogEntry :=
  [LogsPage.mkLogEntry "a1" "2024-01-01T00:00:00Z" LogsPage.info "Schema refresh completed" None;
   LogsPage.mkLogEntry "a2" "2024-01-01T00:01:00Z" LogsPage.error "Query FAILED" None;
   LogsPage.mkLogEntry "b3" "2024-01-01T00:02:00Z" LogsPage.error "Socket closed" None].

(** A parser that knows the frame [null] only. *)
Definition parse_null (text : string) : Completion Dashboard.Json :=
  if String.eqb text "null" then Normal Dashboard.JNull else Throw "SyntaxError".

Definition stringify_none (v : Dashboard.Json) : Completion string := Throw "TypeError".

Definition accept_all (u : string) : bool := true.

(** The layout's hook with its socket open. *)
Definition dashboard_connected : Dashboard.State parse_null stringify_none accept_all :=
  default (@Backoff.init (Dashboard.browser parse_null stringify_none accept_all) 0)
    (@Backoff.run (Dashboard.browser parse_null stringify_none accept_all)
       (Dashboard.options parse_null stringify_none accept_all "ws://localhost:8000/ws")
       (@Backoff.init (Dashboard.browser parse_null stringify_none accept_all) 0)
       [Call_connect; Ev_open 0%nat]).

End Samples.

(** * Supporting lemmas *)

Import Platform.

(** ** Counting in the socket and timer heaps *)

Section CountFacts.
Context {A : Type} (p : A -> bool).

Lemma count_nil : count p [] = 0%nat.
Proof. reflexivity. Qed.

Lemma count_cons x l : count p (x :: l) = (b2n (p x) + count p l)%nat.
Proof.
  unfold count. destruct (p x) eqn:Hx.
  - rewrite filter_cons_True by assumption. reflexivity.
  - rewrite filter_cons_False by congruence. reflexivity.
Qed.

Lemma count_app l1 l2 : count p (l1 ++ l2) = (count p l1 + count p l2)%nat.
Proof.
  induction l1 as [|x l1 IH]; [reflexivity|].
  rewrite <- app_comm_cons, !count_cons, IH. lia.
Qed.

Lemma count_insert l i x y :
  l !! i = Some y ->
  (count p (<[i := x]> l) + b2n (p y) = count p l + b2n (p x))%nat.
Proof.
  revert i. induction l as [|z l IH]; intros [|i] Hi; simplify_eq/=.
  - rewrite !count_cons. lia.
  - rewrite !count_cons. specialize (IH i Hi). lia.
Qed.

Lemma count_insert_drop l i x y :
  l !! i = Some y -> p y = true -> p x = false ->
  count p (<[i := x]> l) = pred (count p l).
Proof.
  intros Hi Hy Hx. pose proof (count_insert l i x y Hi) as Hc.
  rewrite Hy, Hx in Hc. cbn in Hc. lia.
Qed.

Lemma count_snoc l x : count p (l ++ [x]) = (count p l + b2n (p x))%nat.
Proof. rewrite count_app, count_cons, count_nil. lia. Qed.

Lemma count_zero_lookup l i x :
  count p l = 0%nat -> l !! i = Some x -> p x = false.
Proof.
  revert i. induction l as [|z l IH]; intros [|i] Hc Hi; simplify_eq/=;
    rewrite count_cons in Hc.
  - destruct (p x); [cbn in Hc; lia|reflexivity].
  - apply (IH i); [lia|assumption].
Qed.

End CountFacts.

Section QuiescentFacts.
Context `{Browser}.

Lemma quiescent_no_event h id :
  quiescent h ->
  can_open id h = false /\ can_receive id h = false
  /\ can_close id h = false /\ can_fire id h = false.
Proof.
  intros [Hlive Hpending].
  unfold can_open, can_receive, is_open, can_close, can_fire, readyState_of.
  assert (Hs : forall w, sockets h !! id = Some w -> readyState w = CLOSED).
  { intros w Hw. pose proof (count_zero_lookup _ _ _ _ Hlive Hw) as Hl.
    unfold is_live in Hl. destruct (readyState w); cbn in Hl; congruence. }
  assert (Ht : forall t, timers h !! id = Some t -> is_pending t = false).
  { intros t. exact (count_zero_lookup _ _ _ _ Hpending). }
  destruct (sockets h !! id) as [w|]; cbn;
    [rewrite (Hs w eq_refl)|];
    (destruct (timers h !! id) as [t|]; [rewrite (Ht t eq_refl)|]); auto.
Qed.

End QuiescentFacts.

(** ** The clock and the last-sync time *)

Section HostFacts.
Context `{Browser}.

Lemma clock_ws_transition id r h : clock (ws_transition id r h) = clock h.
Proof. unfold ws_transition. repeat case_match; reflexivity. Qed.

Lemma clock_ws_close id h : clock (ws_close id h) = clock h.
Proof. unfold ws_close. repeat case_match; reflexivity. Qed.

Lemma clock_ws_send id t h : clock (ws_send id t h) = clock h.
Proof. unfold ws_send. repeat case_match; reflexivity. Qed.

Lemma clock_clearTimeout id h : clock (clearTimeout id h) = clock h.
Proof. unfold clearTimeout. repeat case_match; reflexivity. Qed.

Lemma clock_timer_fired id h : clock (timer_fired id h) = clock h.
Proof. unfold timer_fired. repeat case_match; reflexivity. Qed.

Lemma date_le_refl d : date_le d d.
Proof. destruct d; cbn; [lia|exact I]. Qed.

Lemma date_le_later d t u : date_le d (Some t) -> t <= u -> date_le d (Some u).
Proof. destruct d; cbn; [lia|trivial]. Qed.

End HostFacts.

#[local] Hint Resolve date_le_refl : core.

Ltac step_cases :=
  simplify_eq/=; repeat (case_match; simplify_eq/=);
  rewrite ?clock_ws_close, ?clock_clearTimeout, ?clock_ws_transition,
    ?clock_timer_fired, ?clock_ws_send.

(** ** Steps and runs of the hook with exponential back-off *)

Section BackoffFacts.
Context `{Browser}.
Variable opts : Backoff.Options.

Lemma Backoff_run_app s es1 es2 :
  Backoff.run opts s (es1 ++ es2)
  = match Backoff.run opts s es1 with
    | Some s' => Backoff.run opts s' es2
    | None => None
    end.
Proof.
  revert s. induction es1 as [|e es1 IH]; intros s; cbn; [reflexivity|].
  destruct (Backoff.step opts s e); [apply IH|reflexivity].
Qed.

(** A property of the initial states that every step preserves holds in
    every reachable state. *)
Lemma Backoff_reachable_ind (P : Backoff.State -> Prop) :
  (forall t0, P (Backoff.init t0)) ->
  (forall s e s', P s -> Backoff.step opts s e = Some s' -> P s') ->
  forall s, Backoff.reachable opts s -> P s.
Proof.
  intros Hinit Hstep s (t0 & es & Hrun).
  enough (Hgen : forall es s0, P s0 -> Backoff.run opts s0 es = Some s -> P s)
    by exact (Hgen es _ (Hinit t0) Hrun).
  clear es Hrun. induction es as [|e es IH]; intros s0 H0 Hrun; cbn in Hrun.
  - congruence.
  - destruct (Backoff.step opts s0 e) as [s1|] eqn:H1; [|discriminate]. eauto.
Qed.

Lemma Backoff_step_sync s e s' :
  Backoff.sync_inv s -> Backoff.step opts s e = Some s' ->
  Backoff.sync_inv s'
  /\ date_le (Backoff.lastSync (Backoff.store s)) (Backoff.lastSync (Backoff.store s')).
Proof.
  unfold Backoff.sync_inv. intros Hinv Hstep.
  destruct s as [h ws tr n [st ls em] lg]. cbn in Hinv.
  destruct e; cbn [Backoff.step] in Hstep;
    unfold Backoff.connect, Backoff.disconnect, Backoff.send, Backoff.onopen,
      Backoff.onmessage, Backoff.onclose, Backoff.onerror, Backoff.on_timer,
      Backoff.connect, Backoff.attemptReconnect, WebSocket_new, setTimeout in Hstep;
    cbn in Hstep; step_cases;
    split; cbn; eauto using date_le_later with lia.
Qed.

Lemma Backoff_reachable_sync s : Backoff.reachable opts s -> Backoff.sync_inv s.
Proof.
  apply Backoff_reachable_ind.
  - intros t0. exact I.
  - intros s0 e s1 H0 H1. exact (proj1 (Backoff_step_sync _ _ _ H0 H1)).
Qed.

Lemma Backoff_step_attempts s e s' :
  Backoff.step opts s e = Some s' ->
  ((exists id, e = Ev_open id) ->
   Backoff.status (Backoff.store s') = Backoff.connected
   /\ Backoff.reconnectAttempts s' = 0)
  /\ ((forall id, e <> Ev_open id) ->
      Backoff.reconnectAttempts s <= Backoff.reconnectAttempts s'
      /\ (Backoff.status (Backoff.store s') = Backoff.connected ->
          Backoff.status (Backoff.store s) = Backoff.connected)).
Proof.
  intros Hstep.
  destruct s as [h ws tr n [st ls em] lg].
  destruct e; cbn [Backoff.step] in Hstep;
    unfold Backoff.connect, Backoff.disconnect, Backoff.send, Backoff.onopen,
      Backoff.onmessage, Backoff.onclose, Backoff.onerror, Backoff.on_timer,
      Backoff.connect, Backoff.attemptReconnect, WebSocket_new, setTimeout in Hstep;
    cbn in Hstep; step_cases;
    (split; [intros [id' Hid]|intros Hne]); simplify_eq/=;
    try (exfalso; eapply Hne; reflexivity);
    try (split; [lia|intros; congruence]); auto.
Qed.

End BackoffFacts.

Section BackoffRuns.
Context `{Browser}.
Variable opts : Backoff.Options.
Hypothesis url_ok : WebSocket_accepts (Backoff.wsBaseUrl opts) = true.

Lemma Backoff_connect_attempting t0 :
  exists s,
    Backoff.step opts (Backoff.init t0) Call_connect = Some s
    /\ Backoff.attempting 0 s
    /\ Backoff.statusLog s = [].
Proof.
  eexists. split; [reflexivity|].
  unfold Backoff.connect, WebSocket_new. cbn. rewrite url_ok.
  repeat split.
Qed.

(** Symbolic execution of the three events of a retry round. *)
Lemma Backoff_step_fail_retry s id w :
  sockets (Backoff.host s) !! id = Some w ->
  readyState w <> CLOSED ->
  Backoff.reconnectAttempts s < Backoff.maxReconnectAttempts ->
  Backoff.step opts s (Ev_fail id)
  = Some (Backoff.mkState
            (mkHost (<[id := set_readyState CLOSED w]> (sockets (Backoff.host s)))
               (timers (Backoff.host s)
                ++ [mkTimer (Backoff.backoff_delay (Backoff.reconnectAttempts s + 1))
                      (clock (Backoff.host s)
                       + Z.max 0 (Backoff.backoff_delay (Backoff.reconnectAttempts s + 1)))
                      Pending])
               (clock (Backoff.host s)) (console (Backoff.host s)) (calls (Backoff.host s)))
            (Backoff.wsRef s)
            (Some (length (timers (Backoff.host s))))
            (Backoff.reconnectAttempts s + 1)
            (Backoff.mkStore Backoff.reconnecting (Backoff.lastSync (Backoff.store s))
               (Some "WebSocket connection failed"))
            (Backoff.statusLog s
             ++ [Backoff.error; Backoff.disconnected; Backoff.reconnecting])).
Proof.
  destruct s as [[socks tims clk cons cls] ws tr n [st ls em] lg]. cbn.
  intros Hw Hlive Hlt.
  unfold can_close, readyState_of. cbn. rewrite Hw. cbn.
  unfold Backoff.onclose, Backoff.onerror, Backoff.attemptReconnect, ws_transition. cbn.
  rewrite Hw. cbn.
  destruct (Z.leb_spec Backoff.maxReconnectAttempts n) as [?|_]; [lia|].
  destruct (readyState w); try congruence; cbn; rewrite <- !app_assoc; reflexivity.
Qed.

Lemma Backoff_step_fail_exhausted s id w :
  sockets (Backoff.host s) !! id = Some w ->
  readyState w <> CLOSED ->
  Backoff.maxReconnectAttempts <= Backoff.reconnectAttempts s ->
  Backoff.step opts s (Ev_fail id)
  = Some (Backoff.mkState
            (with_sockets (<[id := set_readyState CLOSED w]> (sockets (Backoff.host s)))
               (Backoff.host s))
            (Backoff.wsRef s)
            (Backoff.reconnectTimeoutRef s)
            (Backoff.reconnectAttempts s)
            (Backoff.mkStore Backoff.error (Backoff.lastSync (Backoff.store s))
               (Some "Max reconnection attempts reached"))
            (Backoff.statusLog s
             ++ [Backoff.error; Backoff.disconnected; Backoff.error])).
Proof.
  destruct s as [[socks tims clk cons cls] ws tr n [st ls em] lg]. cbn.
  intros Hw Hlive Hge.
  unfold can_close, readyState_of. cbn. rewrite Hw. cbn.
  unfold Backoff.onclose, Backoff.onerror, Backoff.attemptReconnect, ws_transition. cbn.
  rewrite Hw. cbn.
  destruct (Z.leb_spec Backoff.maxReconnectAttempts n) as [_|?]; [|lia].
  destruct (readyState w); try congruence; cbn; rewrite <- !app_assoc; reflexivity.
Qed.

Lemma Backoff_step_timer s id t :
  timers (Backoff.host s) !! id = Some t ->
  tstate t = Pending ->
  due t <= clock (Backoff.host s) ->
  is_open (Backoff.wsRef s) (Backoff.host s) = false ->
  Backoff.step opts s (Ev_timer id)
  = Some (Backoff.mkState
            (mkHost
               (sockets (Backoff.host s)
                ++ [mkWebSocket (Backoff.wsBaseUrl opts) CONNECTING []])
               (<[id := mkTimer (delay t) (due t) Fired]> (timers (Backoff.host s)))
               (clock (Backoff.host s)) (console (Backoff.host s)) (calls (Backoff.host s)))
            (Some (length (sockets (Backoff.host s))))
            (Backoff.reconnectTimeoutRef s)
            (Backoff.reconnectAttempts s)
            (Backoff.store s)
            (Backoff.statusLog s)).
Proof.
  destruct s as [[socks tims clk cons cls] ws tr n st lg]. cbn.
  intros Ht Hpending Hdue Hopen.
  unfold can_fire, is_pending. cbn. rewrite Ht, Hpending.
  apply Z.leb_le in Hdue. rewrite Hdue. cbn.
  unfold Backoff.on_timer, Backoff.connect, timer_fired. cbn. rewrite Ht. cbn.
  unfold is_open, readyState_of in *. cbn in *. rewrite Hopen.
  unfold WebSocket_new. rewrite url_ok. reflexivity.
Qed.

Lemma Backoff_step_tick s d :
  Backoff.step opts s (Tick d)
  = Some (Backoff.with_host
            (with_clock (clock (Backoff.host s) + Z.of_N d) (Backoff.host s)) s).
Proof. reflexivity. Qed.

(** One round: the connecting socket fails, the back-off delay passes, the
    retry fires and creates the next socket. *)
Lemma Backoff_retry_round k s :
  Backoff.attempting k s ->
  Z.of_nat k < Backoff.maxReconnectAttempts ->
  exists s',
    Backoff.run opts s (Backoff.retry_round k) = Some s'
    /\ Backoff.attempting (S k) s'
    /\ Backoff.statusLog s'
       = Backoff.statusLog s ++ [Backoff.error; Backoff.disconnected; Backoff.reconnecting]
    /\ delay <$> timers (Backoff.host s') !! k = Some (Backoff.backoff_delay (Z.of_nat k + 1)).
Proof.
  intros (Hlen & Hk & Hlive & Htlen & Hpend & Hws & Hn) Hlt.
  unfold readyState_of in Hk.
  destruct (sockets (Backoff.host s) !! k) as [w|] eqn:Hw; [|discriminate].
  cbn in Hk. injection Hk as Hk.
  unfold Backoff.retry_round. cbn [Backoff.run].
  rewrite (Backoff_step_fail_retry s k w Hw) by (rewrite ?Hn; first [congruence|lia]).
  rewrite Backoff_step_tick. cbn [Backoff.host Backoff.with_host with_clock]. rewrite Hn, Htlen.
  set (d := Backoff.backoff_delay (Z.of_nat k + 1)).
  set (T := mkTimer d (clock (Backoff.host s) + Z.max 0 d) Pending).
  assert (HT : (timers (Backoff.host s) ++ [T]) !! k = Some T).
  { rewrite lookup_app_r by lia. rewrite Htlen, Nat.sub_diag. reflexivity. }
  assert (Hclosed : <[k := set_readyState CLOSED w]> (sockets (Backoff.host s)) !! k
                    = Some (set_readyState CLOSED w)).
  { apply list_lookup_insert_eq. apply lookup_lt_Some in Hw. exact Hw. }
  erewrite Backoff_step_timer; cycle 1.
  - exact HT.
  - reflexivity.
  - cbn. lia.
  - cbn. rewrite Hws. unfold is_open, readyState_of. cbn. rewrite Hclosed. reflexivity.
  - eexists. split; [reflexivity|].
    unfold Backoff.attempting, readyState_of, live_sockets, pending_timers in *. cbn.
    rewrite !length_app, !length_insert, !length_app. cbn.
    rewrite lookup_app_r by (rewrite length_insert; lia).
    rewrite length_insert, Hlen, Nat.sub_diag. cbn.
    rewrite count_snoc.
    rewrite (count_insert_drop is_live _ k _ w Hw)
      by (unfold is_live; cbn; rewrite ?Hk; reflexivity).
    rewrite (count_insert_drop is_pending _ k _ T HT) by reflexivity.
    rewrite count_snoc, Hlive, Hpend.
    rewrite list_lookup_insert_eq by (rewrite length_app; cbn; lia).
    cbn.
    repeat split; try lia.
Qed.

Lemma Backoff_retry_rounds n : forall k s,
  Backoff.attempting k s ->
  Z.of_nat (k + n) <= Backoff.maxReconnectAttempts ->
  exists s',
    Backoff.run opts s (Backoff.retry_rounds k n) = Some s'
    /\ Backoff.attempting (k + n) s'
    /\ Backoff.statusLog s'
       = Backoff.statusLog s
         ++ concat (replicate n [Backoff.error; Backoff.disconnected; Backoff.reconnecting]).
Proof.
  induction n as [|n IH]; intros k s Hk Hle.
  - exists s. rewrite Nat.add_0_r, app_nil_r. auto.
  - destruct (Backoff_retry_round k s Hk) as (s1 & Hrun1 & Hk1 & Hlog1 & _); [lia|].
    destruct (IH (S k) s1 Hk1) as (s2 & Hrun2 & Hk2 & Hlog2); [lia|].
    exists s2. cbn [Backoff.retry_rounds]. rewrite Backoff_run_app, Hrun1.
    split; [exact Hrun2|].
    split; [replace (k + S n)%nat with (S k + n)%nat by lia; exact Hk2|].
    rewrite Hlog2, Hlog1, <- app_assoc. reflexivity.
Qed.

Lemma Backoff_open_attempt k s :
  Backoff.attempting k s ->
  exists s',
    Backoff.step opts s (Ev_open k) = Some s'
    /\ Backoff.status (Backoff.store s') = Backoff.connected
    /\ Backoff.reconnectAttempts s' = 0
    /\ Backoff.statusLog s' = Backoff.statusLog s ++ [Backoff.connected].
Proof.
  intros (_ & Hk & _). cbn [Backoff.step]. unfold can_open. rewrite Hk.
  eexists. split; [reflexivity|]. repeat split.
Qed.

Lemma Backoff_last_failure k s :
  Backoff.attempting k s ->
  Backoff.maxReconnectAttempts <= Z.of_nat k ->
  exists s',
    Backoff.step opts s (Ev_fail k) = Some s'
    /\ Backoff.status (Backoff.store s') = Backoff.error
    /\ Backoff.errorMessage (Backoff.store s') = Some "Max reconnection attempts reached"
    /\ Backoff.reconnectAttempts s' = Z.of_nat k
    /\ quiescent (Backoff.host s').
Proof.
  intros (Hlen & Hk & Hlive & Htlen & Hpend & Hws & Hn) Hge.
  unfold readyState_of in Hk.
  destruct (sockets (Backoff.host s) !! k) as [w|] eqn:Hw; [|discriminate].
  cbn in Hk. injection Hk as Hk.
  rewrite (Backoff_step_fail_exhausted s k w Hw) by (rewrite ?Hn; first [congruence|lia]).
  eexists. split; [reflexivity|]. cbn.
  repeat split; try assumption.
  unfold live_sockets in *. cbn.
  rewrite (count_insert_drop is_live _ k _ w Hw)
    by (unfold is_live; cbn; rewrite ?Hk; reflexivity).
  rewrite Hlive. reflexivity.
Qed.

Lemma Backoff_quiescent_stuck s e :
  quiescent (Backoff.host s) -> is_browser_event e = true ->
  Backoff.step opts s e = None.
Proof.
  intros Hq He.
  destruct e; try discriminate; cbn [Backoff.step];
    destruct (quiescent_no_event (Backoff.host s) id Hq) as (Ho & Hr & Hc & Hf);
    rewrite ?Ho, ?Hr, ?Hc, ?Hf; reflexivity.
Qed.

End BackoffRuns.

(** ** Steps and runs of the hook with the fixed interval *)

Section FixedFacts.
Context `{Browser}.
Variable opts : Fixed.Options.

Lemma Fixed_run_app s es1 es2 :
  Fixed.run opts s (es1 ++ es2)
  = match Fixed.run opts s es1 with
    | Some s' => Fixed.run opts s' es2
    | None => None
    end.
Proof.
  revert s. induction es1 as [|e es1 IH]; intros s; cbn; [reflexivity|].
  destruct (Fixed.step opts s e); [apply IH|reflexivity].
Qed.

(** A property of the initial states that every step preserves holds in
    every reachable state. *)
Lemma Fixed_reachable_ind (P : Fixed.State -> Prop) :
  (forall t0, P (Fixed.init t0)) ->
  (forall s e s', P s -> Fixed.step opts s e = Some s' -> P s') ->
  forall s, Fixed.reachable opts s -> P s.
Proof.
  intros Hinit Hstep s (t0 & es & Hrun).
  enough (Hgen : forall es s0, P s0 -> Fixed.run opts s0 es = Some s -> P s)
    by exact (Hgen es _ (Hinit t0) Hrun).
  clear es Hrun. induction es as [|e es IH]; intros s0 H0 Hrun; cbn in Hrun.
  - congruence.
  - destruct (Fixed.step opts s0 e) as [s1|] eqn:H1; [|discriminate]. eauto.
Qed.

Lemma Fixed_step_sync s e s' :
  Fixed.sync_inv s -> Fixed.step opts s e = Some s' ->
  Fixed.sync_inv s'
  /\ date_le (Fixed.lastSyncTime (Fixed.store s)) (Fixed.lastSyncTime (Fixed.store s')).
Proof.
  unfold Fixed.sync_inv. intros Hinv Hstep.
  destruct s as [h ws n tr [st ls] lg]. cbn in Hinv.
  destruct e; cbn [Fixed.step] in Hstep;
    unfold Fixed.connect, Fixed.disconnect, Fixed.send, Fixed.onopen,
      Fixed.onmessage, Fixed.onclose, Fixed.onerror, Fixed.on_timer,
      Fixed.connect, WebSocket_new, setTimeout in Hstep;
    cbn in Hstep; step_cases;
    split; cbn; eauto using date_le_later with lia.
Qed.

Lemma Fixed_reachable_sync s : Fixed.reachable opts s -> Fixed.sync_inv s.
Proof.
  apply Fixed_reachable_ind.
  - intros t0. exact I.
  - intros s0 e s1 H0 H1. exact (proj1 (Fixed_step_sync _ _ _ H0 H1)).
Qed.

Lemma Fixed_step_attempts s e s' :
  Fixed.step opts s e = Some s' ->
  ((exists id, e = Ev_open id) ->
   Fixed.connectionStatus (Fixed.store s') = Fixed.connected
   /\ Fixed.reconnectAttemptsRef s' = 0)
  /\ ((forall id, e <> Ev_open id) ->
      Fixed.reconnectAttemptsRef s <= Fixed.reconnectAttemptsRef s'
      /\ (Fixed.connectionStatus (Fixed.store s') = Fixed.connected ->
          Fixed.connectionStatus (Fixed.store s) = Fixed.connected)).
Proof.
  intros Hstep.
  destruct s as [h ws n tr [st ls] lg].
  destruct e; cbn [Fixed.step] in Hstep;
    unfold Fixed.connect, Fixed.disconnect, Fixed.send, Fixed.onopen,
      Fixed.onmessage, Fixed.onclose, Fixed.onerror, Fixed.on_timer,
      Fixed.connect, WebSocket_new, setTimeout in Hstep;
    cbn in Hstep; step_cases;
    (split; [intros [id' Hid]|intros Hne]); simplify_eq/=;
    try (exfalso; eapply Hne; reflexivity);
    try (split; [lia|intros; congruence]); auto.
Qed.

End FixedFacts.

Section FixedRuns.
Context `{Browser}.
Variable opts : Fixed.Options.
Hypothesis url_ok : WebSocket_accepts (Fixed.wsUrl opts) = true.

Lemma Fixed_connect_attempting t0 :
  exists s,
    Fixed.step opts (Fixed.init t0) Call_connect = Some s
    /\ Fixed.attempting 0 s
    /\ Fixed.statusLog s = [Fixed.connecting].
Proof.
  eexists. split; [reflexivity|].
  unfold Fixed.connect, WebSocket_new. cbn. rewrite url_ok.
  repeat split.
Qed.

Lemma Fixed_step_fail_retry s id w :
  sockets (Fixed.host s) !! id = Some w ->
  readyState w <> CLOSED ->
  Fixed.reconnectAttemptsRef s < Fixed.maxReconnectAttempts opts ->
  Fixed.step opts s (Ev_fail id)
  = Some (Fixed.mkState
            (mkHost (<[id := set_readyState CLOSED w]> (sockets (Fixed.host s)))
               (timers (Fixed.host s)
                ++ [mkTimer (Fixed.reconnectInterval opts)
                      (clock (Fixed.host s) + Z.max 0 (Fixed.reconnectInterval opts))
                      Pending])
               (clock (Fixed.host s)) (console (Fixed.host s))
               (calls (Fixed.host s) ++ Fixed.failure_callbacks opts))
            (Fixed.wsRef s)
            (Fixed.reconnectAttemptsRef s)
            (Some (length (timers (Fixed.host s))))
            (Fixed.mkStore Fixed.disconnected (Fixed.lastSyncTime (Fixed.store s)))
            (Fixed.statusLog s ++ [Fixed.error; Fixed.disconnected])).
Proof.
  destruct s as [[socks tims clk cons cls] ws n tr [st ls] lg]. cbn.
  intros Hw Hlive Hlt.
  unfold can_close, readyState_of. cbn. rewrite Hw. cbn.
  unfold Fixed.onclose, Fixed.onerror, ws_transition, Fixed.failure_callbacks. cbn.
  rewrite Hw.
  destruct (readyState w); try congruence;
    destruct (Fixed.onError opts), (Fixed.onClose opts); cbn;
    (destruct (Z.ltb_spec n (Fixed.maxReconnectAttempts opts)) as [_|?]; [|lia]);
    cbn; rewrite <- ?app_assoc, ?app_nil_r; reflexivity.
Qed.

Lemma Fixed_step_fail_exhausted s id w :
  sockets (Fixed.host s) !! id = Some w ->
  readyState w <> CLOSED ->
  Fixed.maxReconnectAttempts opts <= Fixed.reconnectAttemptsRef s ->
  Fixed.step opts s (Ev_fail id)
  = Some (Fixed.mkState
            (mkHost (<[id := set_readyState CLOSED w]> (sockets (Fixed.host s)))
               (timers (Fixed.host s))
               (clock (Fixed.host s)) (console (Fixed.host s))
               (calls (Fixed.host s) ++ Fixed.failure_callbacks opts))
            (Fixed.wsRef s)
            (Fixed.reconnectAttemptsRef s)
            (Fixed.reconnectTimeoutRef s)
            (Fixed.mkStore Fixed.disconnected (Fixed.lastSyncTime (Fixed.store s)))
            (Fixed.statusLog s ++ [Fixed.error; Fixed.disconnected])).
Proof.
  destruct s as [[socks tims clk cons cls] ws n tr [st ls] lg]. cbn.
  intros Hw Hlive Hge.
  unfold can_close, readyState_of. cbn. rewrite Hw. cbn.
  unfold Fixed.onclose, Fixed.onerror, ws_transition, Fixed.failure_callbacks. cbn.
  rewrite Hw.
  destruct (readyState w); try congruence;
    destruct (Fixed.onError opts), (Fixed.onClose opts); cbn;
    (destruct (Z.ltb_spec n (Fixed.maxReconnectAttempts opts)) as [?|_]; [lia|]);
    cbn; rewrite <- ?app_assoc, ?app_nil_r; reflexivity.
Qed.

Lemma Fixed_step_timer s id t :
  timers (Fixed.host s) !! id = Some t ->
  tstate t = Pending ->
  due t <= clock (Fixed.host s) ->
  is_open (Fixed.wsRef s) (Fixed.host s) = false ->
  Fixed.step opts s (Ev_timer id)
  = Some (Fixed.mkState
            (mkHost
               (sockets (Fixed.host s) ++ [mkWebSocket (Fixed.wsUrl opts) CONNECTING []])
               (<[id := mkTimer (delay t) (due t) Fired]> (timers (Fixed.host s)))
               (clock (Fixed.host s)) (console (Fixed.host s)) (calls (Fixed.host s)))
            (Some (length (sockets (Fixed.host s))))
            (Fixed.reconnectAttemptsRef s + 1)
            (Fixed.reconnectTimeoutRef s)
            (Fixed.mkStore Fixed.connecting (Fixed.lastSyncTime (Fixed.store s)))
            (Fixed.statusLog s ++ [Fixed.connecting])).
Proof.
  destruct s as [[socks tims clk cons cls] ws n tr [st ls] lg]. cbn.
  intros Ht Hpending Hdue Hopen.
  unfold can_fire, is_pending. cbn. rewrite Ht, Hpending.
  apply Z.leb_le in Hdue. rewrite Hdue. cbn.
  unfold Fixed.on_timer, Fixed.connect, timer_fired. cbn. rewrite Ht. cbn.
  unfold is_open, readyState_of in *. cbn in *. rewrite Hopen.
  unfold WebSocket_new. rewrite url_ok. reflexivity.
Qed.

Lemma Fixed_step_tick s d :
  Fixed.step opts s (Tick d)
  = Some (Fixed.with_host
            (with_clock (clock (Fixed.host s) + Z.of_N d) (Fixed.host s)) s).
Proof. reflexivity. Qed.

Lemma Fixed_retry_round k s :
  Fixed.attempting k s ->
  Z.of_nat k < Fixed.maxReconnectAttempts opts ->
  exists s',
    Fixed.run opts s (Fixed.retry_round opts k) = Some s'
    /\ Fixed.attempting (S k) s'
    /\ Fixed.statusLog s'
       = Fixed.statusLog s ++ [Fixed.error; Fixed.disconnected; Fixed.connecting]
    /\ delay <$> timers (Fixed.host s') !! k = Some (Fixed.reconnectInterval opts).
Proof.
  intros (Hlen & Hk & Hlive & Htlen & Hpend & Hws & Hn) Hlt.
  unfold readyState_of in Hk.
  destruct (sockets (Fixed.host s) !! k) as [w|] eqn:Hw; [|discriminate].
  cbn in Hk. injection Hk as Hk.
  unfold Fixed.retry_round. cbn [Fixed.run].
  rewrite (Fixed_step_fail_retry s k w Hw) by (rewrite ?Hn; first [congruence|lia]).
  rewrite Fixed_step_tick. cbn [Fixed.host Fixed.with_host with_clock]. rewrite Hn, Htlen.
  set (d := Fixed.reconnectInterval opts).
  set (T := mkTimer d (clock (Fixed.host s) + Z.max 0 d) Pending).
  assert (HT : (timers (Fixed.host s) ++ [T]) !! k = Some T).
  { rewrite lookup_app_r by lia. rewrite Htlen, Nat.sub_diag. reflexivity. }
  assert (Hclosed : <[k := set_readyState CLOSED w]> (sockets (Fixed.host s)) !! k
                    = Some (set_readyState CLOSED w)).
  { apply list_lookup_insert_eq. apply lookup_lt_Some in Hw. exact Hw. }
  erewrite Fixed_step_timer; cycle 1.
  - exact HT.
  - reflexivity.
  - cbn. lia.
  - cbn. rewrite Hws. unfold is_open, readyState_of. cbn. rewrite Hclosed. reflexivity.
  - eexists. split; [reflexivity|].
    unfold Fixed.attempting, readyState_of, live_sockets, pending_timers in *. cbn.
    rewrite !length_app, !length_insert, !length_app. cbn.
    rewrite lookup_app_r by (rewrite length_insert; lia).
    rewrite length_insert, Hlen, Nat.sub_diag. cbn.
    rewrite count_snoc.
    rewrite (count_insert_drop is_live _ k _ w Hw)
      by (unfold is_live; cbn; rewrite ?Hk; reflexivity).
    rewrite (count_insert_drop is_pending _ k _ T HT) by reflexivity.
    rewrite count_snoc, Hlive, Hpend.
    rewrite list_lookup_insert_eq by (rewrite length_app; cbn; lia).
    cbn.
    repeat split; try lia.
    rewrite <- app_assoc. reflexivity.
Qed.

Lemma Fixed_retry_rounds n : forall k s,
  Fixed.attempting k s ->
  (n <> 0%nat -> Z.of_nat (k + n) <= Fixed.maxReconnectAttempts opts) ->
  exists s',
    Fixed.run opts s (Fixed.retry_rounds opts k n) = Some s'
    /\ Fixed.attempting (k + n) s'
    /\ Fixed.statusLog s'
       = Fixed.statusLog s
         ++ concat (replicate n [Fixed.error; Fixed.disconnected; Fixed.connecting]).
Proof.
  induction n as [|n IH]; intros k s Hk Hle.
  - exists s. rewrite Nat.add_0_r, app_nil_r. auto.
  - specialize (Hle ltac:(lia)).
    destruct (Fixed_retry_round k s Hk) as (s1 & Hrun1 & Hk1 & Hlog1 & _); [lia|].
    destruct (IH (S k) s1 Hk1) as (s2 & Hrun2 & Hk2 & Hlog2); [lia|].
    exists s2. cbn [Fixed.retry_rounds]. rewrite Fixed_run_app, Hrun1.
    split; [exact Hrun2|].
    split; [replace (k + S n)%nat with (S k + n)%nat by lia; exact Hk2|].
    rewrite Hlog2, Hlog1, <- app_assoc. reflexivity.
Qed.

Lemma Fixed_open_attempt k s :
  Fixed.attempting k s ->
  exists s',
    Fixed.step opts s (Ev_open k) = Some s'
    /\ Fixed.connectionStatus (Fixed.store s') = Fixed.connected
    /\ Fixed.reconnectAttemptsRef s' = 0
    /\ Fixed.statusLog s' = Fixed.statusLog s ++ [Fixed.connected].
Proof.
  intros (_ & Hk & _). cbn [Fixed.step]. unfold can_open. rewrite Hk.
  eexists. split; [reflexivity|].
  unfold Fixed.onopen. cbn. destruct (Fixed.onOpen opts); repeat split.
Qed.

Lemma Fixed_last_failure k s :
  Fixed.attempting k s ->
  Fixed.maxReconnectAttempts opts <= Z.of_nat k ->
  exists s',
    Fixed.step opts s (Ev_fail k) = Some s'
    /\ Fixed.connectionStatus (Fixed.store s') = Fixed.disconnected
    /\ Fixed.reconnectAttemptsRef s' = Z.of_nat k
    /\ quiescent (Fixed.host s').
Proof.
  intros (Hlen & Hk & Hlive & Htlen & Hpend & Hws & Hn) Hge.
  unfold readyState_of in Hk.
  destruct (sockets (Fixed.host s) !! k) as [w|] eqn:Hw; [|discriminate].
  cbn in Hk. injection Hk as Hk.
  rewrite (Fixed_step_fail_exhausted s k w Hw) by (rewrite ?Hn; first [congruence|lia]).
  eexists. split; [reflexivity|]. cbn.
  repeat split; try assumption.
  unfold live_sockets in *. cbn.
  rewrite (count_insert_drop is_live _ k _ w Hw)
    by (unfold is_live; cbn; rewrite ?Hk; reflexivity).
  rewrite Hlive. reflexivity.
Qed.

Lemma Fixed_quiescent_stuck s e :
  quiescent (Fixed.host s) -> is_browser_event e = true ->
  Fixed.step opts s e = None.
Proof.
  intros Hq He.
  destruct e; try discriminate; cbn [Fixed.step];
    destruct (quiescent_no_event (Fixed.host s) id Hq) as (Ho & Hr & Hc & Hf);
    rewrite ?Ho, ?Hr, ?Hc, ?Hf; reflexivity.
Qed.

End FixedRuns.

(** ** How the heaps change, and the retry budget *)

Section HeapFacts.
Context `{Browser}.

Lemma count_pos {A} (p : A -> bool) l i x :
  l !! i = Some x -> p x = true -> (1 <= count p l)%nat.
Proof.
  intros Hi Hx. destruct (count p l) eqn:Hc; [|lia].
  rewrite (count_zero_lookup p l i x Hc Hi) in Hx. discriminate.
Qed.

Lemma count_insert_same {A} (p : A -> bool) l i x y :
  l !! i = Some y -> p x = p y -> count p (<[i := x]> l) = count p l.
Proof.
  intros Hi Hp. pose proof (count_insert p l i x y Hi) as Hc.
  rewrite Hp in Hc. lia.
Qed.

Lemma timers_ws_transition id r h : timers (ws_transition id r h) = timers h.
Proof. unfold ws_transition. repeat case_match; reflexivity. Qed.

Lemma timers_ws_close id h : timers (ws_close id h) = timers h.
Proof. unfold ws_close. repeat case_match; reflexivity. Qed.

Lemma timers_ws_send id t h : timers (ws_send id t h) = timers h.
Proof. unfold ws_send. repeat case_match; reflexivity. Qed.

Lemma sockets_clearTimeout id h : sockets (clearTimeout id h) = sockets h.
Proof. unfold clearTimeout. repeat case_match; reflexivity. Qed.

Lemma sockets_timer_fired id h : sockets (timer_fired id h) = sockets h.
Proof. unfold timer_fired. repeat case_match; reflexivity. Qed.

Lemma pending_clearTimeout id h :
  (count is_pending (timers (clearTimeout id h)) <= count is_pending (timers h))%nat.
Proof.
  unfold clearTimeout.
  destruct (timers h !! id) as [t|] eqn:Ht; [|lia].
  destruct (tstate t) eqn:Hs; try lia. cbn.
  rewrite (count_insert_drop is_pending _ id _ t Ht); [lia| |reflexivity].
  unfold is_pending. rewrite Hs. reflexivity.
Qed.

Lemma pending_timer_fired id h :
  can_fire id h = true ->
  S (count is_pending (timers (timer_fired id h))) = count is_pending (timers h).
Proof.
  unfold can_fire, timer_fired.
  destruct (timers h !! id) as [t|] eqn:Ht; [|discriminate].
  intros [Hp _]%andb_prop. cbn.
  rewrite (count_insert_drop is_pending _ id _ t Ht Hp) by reflexivity.
  pose proof (count_pos is_pending _ id t Ht Hp). lia.
Qed.

Lemma live_closed id h :
  can_close id h = true ->
  S (count is_live (sockets (ws_transition id CLOSED h))) = count is_live (sockets h).
Proof.
  unfold can_close, readyState_of, ws_transition.
  destruct (sockets h !! id) as [w|] eqn:Hw; [|discriminate].
  cbn. intros Hc.
  assert (Hl : is_live w = true) by (unfold is_live; destruct (readyState w); done).
  rewrite (count_insert_drop is_live _ id _ w Hw Hl) by reflexivity.
  pose proof (count_pos is_live _ id w Hw Hl). lia.
Qed.

Lemma live_ws_close id h :
  count is_live (sockets (ws_close id h)) = count is_live (sockets h).
Proof.
  unfold ws_close.
  destruct (sockets h !! id) as [w|] eqn:Hw; [|reflexivity].
  destruct (readyState w) eqn:Hr; try reflexivity; cbn;
    apply (count_insert_same is_live _ id _ w Hw); unfold is_live; cbn; rewrite Hr;
    reflexivity.
Qed.

Lemma live_ws_send id t h :
  count is_live (sockets (ws_send id t h)) = count is_live (sockets h).
Proof.
  unfold ws_send.
  destruct (sockets h !! id) as [w|] eqn:Hw; [|reflexivity].
  cbn. apply (count_insert_same is_live _ id _ w Hw). reflexivity.
Qed.

End HeapFacts.

Create Rewrite HintDb heap.
#[local] Hint Rewrite @timers_ws_transition @timers_ws_close @timers_ws_send
  @sockets_clearTimeout @sockets_timer_fired @live_ws_close @live_ws_send
  @count_snoc : heap.

Section BackoffBudget.
Context `{Browser}.
Variable opts : Backoff.Options.

Lemma Backoff_step_budget s e s' :
  Backoff.step opts s e = Some s' ->
  is_Ev_open e = false ->
  (b2n (is_Ev_timer e) + Backoff.retry_budget s' <= Backoff.retry_budget s)%nat.
Proof.
  intros Hstep Hno.
  destruct s as [h ws tr n st lg].
  unfold Backoff.retry_budget, pending_timers.
  destruct e; try discriminate; cbn [Backoff.step] in Hstep;
    unfold Backoff.connect, Backoff.disconnect, Backoff.send,
      Backoff.onmessage, Backoff.onclose, Backoff.onerror, Backoff.on_timer,
      Backoff.connect, Backoff.attemptReconnect, WebSocket_new, setTimeout in Hstep;
    cbn in Hstep; simplify_eq/=; repeat (case_match; simplify_eq/=);
    autorewrite with heap; cbn;
    try match goal with
      | H : can_fire ?id ?h = true |- _ => pose proof (pending_timer_fired id h H)
      end;
    try match goal with
      | |- context [clearTimeout ?id ?h] => pose proof (pending_clearTimeout id h)
      end;
    unfold Backoff.maxReconnectAttempts in *; try lia.
Qed.

Lemma Backoff_run_budget es : forall s s',
  Backoff.run opts s es = Some s' ->
  forallb (fun e => negb (is_Ev_open e)) es = true ->
  (count is_Ev_timer es + Backoff.retry_budget s' <= Backoff.retry_budget s)%nat.
Proof.
  induction es as [|e es IH]; intros s s' Hrun Hno; cbn in Hrun, Hno.
  - injection Hrun as <-. rewrite count_nil. lia.
  - destruct (Backoff.step opts s e) as [s1|] eqn:Hstep; [|discriminate].
    apply andb_prop in Hno as [He Hes]. apply negb_true_iff in He.
    pose proof (Backoff_step_budget s e s1 Hstep He).
    pose proof (IH s1 s' Hrun Hes).
    rewrite count_cons. lia.
Qed.

End BackoffBudget.

Section FixedBudget.
Context `{Browser}.
Variable opts : Fixed.Options.

Lemma Fixed_step_budget s e s' :
  Fixed.step opts s e = Some s' ->
  is_Ev_open e = false ->
  is_Call_connect e = false ->
  (b2n (is_Ev_timer e) + Fixed.retry_budget opts s' <= Fixed.retry_budget opts s)%nat.
Proof.
  intros Hstep Hno Hnc.
  destruct s as [h ws n tr st lg].
  unfold Fixed.retry_budget, pending_timers, live_sockets.
  destruct e; try discriminate; cbn [Fixed.step] in Hstep;
    unfold Fixed.disconnect, Fixed.send,
      Fixed.onmessage, Fixed.onclose, Fixed.onerror, Fixed.on_timer,
      Fixed.connect, WebSocket_new, setTimeout in Hstep;
    cbn in Hstep; simplify_eq/=; repeat (case_match; simplify_eq/=);
    autorewrite with heap; cbn;
    try match goal with
      | H : can_fire ?id ?h = true |- _ => pose proof (pending_timer_fired id h H)
      end;
    try match goal with
      | H : can_close ?id ?h = true |- _ => pose proof (live_closed id h H)
      end;
    try match goal with
      | |- context [clearTimeout ?id ?h] => pose proof (pending_clearTimeout id h)
      end;
    try lia.
Qed.

Lemma Fixed_run_budget es : forall s s',
  Fixed.run opts s es = Some s' ->
  forallb (fun e => negb (is_Ev_open e) && negb (is_Call_connect e)) es = true ->
  (count is_Ev_timer es + Fixed.retry_budget opts s' <= Fixed.retry_budget opts s)%nat.
Proof.
  induction es as [|e es IH]; intros s s' Hrun Hno; cbn in Hrun, Hno.
  - injection Hrun as <-. rewrite count_nil. lia.
  - destruct (Fixed.step opts s e) as [s1|] eqn:Hstep; [|discriminate].
    apply andb_prop in Hno as [He Hes]. apply andb_prop in He as [Ho Hc].
    apply negb_true_iff in Ho, Hc.
    pose proof (Fixed_step_budget s e s1 Hstep Ho Hc).
    pose proof (IH s1 s' Hrun Hes).
    rewrite count_cons. lia.
Qed.

End FixedBudget.

(** ** Teardown when only the retry timer is left *)

Section Teardown.
Context `{Browser}.

Lemma pending_clearTimeout_last t tm h :
  timers h !! t = Some tm -> tstate tm = Pending ->
  count is_pending (timers h) = 1%nat ->
  count is_pending (timers (clearTimeout t h)) = 0%nat.
Proof.
  intros Ht Hp Hone. unfold clearTimeout. rewrite Ht, Hp. cbn.
  rewrite (count_insert_drop is_pending _ t _ tm Ht); [lia| |reflexivity].
  unfold is_pending. rewrite Hp. reflexivity.
Qed.

(** When no socket is live and the one pending timer is the retry held in
    [reconnectTimeoutRef], [disconnect] leaves nothing that could raise an
    event: the retry is cancelled for good. *)
Lemma Backoff_disconnect_at_rest s t tm :
  live_sockets (Backoff.host s) = 0%nat ->
  pending_timers (Backoff.host s) = 1%nat ->
  Backoff.reconnectTimeoutRef s = Some t ->
  timers (Backoff.host s) !! t = Some tm ->
  tstate tm = Pending ->
  quiescent (Backoff.host (Backoff.disconnect s))
  /\ Backoff.status (Backoff.store (Backoff.disconnect s)) = Backoff.disconnected.
Proof.
  unfold live_sockets, pending_timers. intros Hlive Hone Href Ht Hp.
  pose proof (pending_clearTimeout_last t tm _ Ht Hp Hone) as Hzero.
  unfold Backoff.disconnect, quiescent, live_sockets, pending_timers.
  rewrite Href. cbn.
  destruct (Backoff.wsRef s); cbn; autorewrite with heap; auto.
Qed.

Lemma Fixed_disconnect_at_rest s t tm :
  live_sockets (Fixed.host s) = 0%nat ->
  pending_timers (Fixed.host s) = 1%nat ->
  Fixed.reconnectTimeoutRef s = Some t ->
  timers (Fixed.host s) !! t = Some tm ->
  tstate tm = Pending ->
  quiescent (Fixed.host (Fixed.disconnect s))
  /\ Fixed.connectionStatus (Fixed.store (Fixed.disconnect s)) = Fixed.disconnected.
Proof.
  unfold live_sockets, pending_timers. intros Hlive Hone Href Ht Hp.
  pose proof (pending_clearTimeout_last t tm _ Ht Hp Hone) as Hzero.
  unfold Fixed.disconnect, quiescent, live_sockets, pending_timers.
  rewrite Href. cbn.
  destruct (Fixed.wsRef s); cbn; autorewrite with heap; auto.
Qed.

(** [connect] on an open socket does nothing. *)
Lemma Backoff_connect_open_noop (opts : Backoff.Options) s :
  is_open (Backoff.wsRef s) (Backoff.host s) = true -> Backoff.connect opts s = s.
Proof. intros Hopen. unfold Backoff.connect. rewrite Hopen. reflexivity. Qed.

Lemma Fixed_connect_open_noop (opts : Fixed.Options) s :
  is_open (Fixed.wsRef s) (Fixed.host s) = true -> Fixed.connect opts s = s.
Proof. intros Hopen. unfold Fixed.connect. rewrite Hopen. reflexivity. Qed.

End Teardown.

(** * Properties of the connection manager *)

(** ** Inbound frames *)

Section InboundFrames.
Context `{Browser}.

(** C6. An inbound text frame that [JSON.parse] rejects: the handler of the
    message event runs to completion (the step yields a state, nothing is
    thrown out of it), the status in the store and the list of statuses
    published are unchanged, the [onMessage] handler is not called, and the
    frame is logged to the console and otherwise dropped.  For both
    hooks. *)
Theorem malformed_frame_logged_and_dropped :
  forall (data e : string) (id : nat),
    JSON_parse data = Throw e ->
    (forall (opts : Backoff.Options) (s : Backoff.State),
        can_receive id (Backoff.host s) = true ->
        exists s',
          Backoff.step opts s (Ev_message id data) = Some s'
          /\ Backoff.status (Backoff.store s') = Backoff.status (Backoff.store s)
          /\ Backoff.statusLog s' = Backoff.statusLog s
          /\ calls (Backoff.host s') = calls (Backoff.host s)
          /\ console (Backoff.host s')
             = console (Backoff.host s) ++ ["Failed to parse WebSocket message:"])
    /\ (forall (opts : Fixed.Options) (s : Fixed.State),
        can_receive id (Fixed.host s) = true ->
        exists s',
          Fixed.step opts s (Ev_message id data) = Some s'
          /\ Fixed.connectionStatus (Fixed.store s') = Fixed.connectionStatus (Fixed.store s)
          /\ Fixed.statusLog s' = Fixed.statusLog s
          /\ calls (Fixed.host s') = calls (Fixed.host s)
          /\ console (Fixed.host s')
             = console (Fixed.host s) ++ ["Failed to parse WebSocket message:"]).
Proof.
  intros data e id Hparse. split; intros opts s Hrecv; cbn [Backoff.step Fixed.step];
    rewrite Hrecv; eexists; (split; [reflexivity|]).
  - unfold Backoff.onmessage. rewrite Hparse. cbn. auto.
  - unfold Fixed.onmessage. rewrite Hparse. cbn. auto.
Qed.

(** C10. On a frame that fails to parse, [onmessage] changes nothing but
    the console: the store ([status], [lastSync], [errorMessage]; for the
    other hook [connectionStatus], [lastSyncTime]), the attempt counter, the
    two refs, the sockets, the timers and the clock keep their values.  The
    parse comes before the update of the last-sync time, which is therefore
    not reached. *)
Theorem malformed_frame_leaves_state :
  forall (data e : string),
    JSON_parse data = Throw e ->
    (forall (opts : Backoff.Options) (s : Backoff.State),
        Backoff.onmessage opts data s
        = Backoff.with_host
            (console_error "Failed to parse WebSocket message:" (Backoff.host s)) s
        /\ Backoff.store (Backoff.onmessage opts data s) = Backoff.store s
        /\ Backoff.lastSync (Backoff.store (Backoff.onmessage opts data s))
           = Backoff.lastSync (Backoff.store s)
        /\ Backoff.errorMessage (Backoff.store (Backoff.onmessage opts data s))
           = Backoff.errorMessage (Backoff.store s)
        /\ Backoff.reconnectAttempts (Backoff.onmessage opts data s)
           = Backoff.reconnectAttempts s)
    /\ (forall (opts : Fixed.Options) (s : Fixed.State),
        Fixed.onmessage opts data s
        = Fixed.with_host
            (console_error "Failed to parse WebSocket message:" (Fixed.host s)) s
        /\ Fixed.store (Fixed.onmessage opts data s) = Fixed.store s
        /\ Fixed.reconnectAttemptsRef (Fixed.onmessage opts data s)
           = Fixed.reconnectAttemptsRef s).
Proof.
  intros data e Hparse. split; intros opts s.
  - unfold Backoff.onmessage. rewrite Hparse. cbn. auto.
  - unfold Fixed.onmessage. rewrite Hparse. cbn. auto.
Qed.

End InboundFrames.

Lemma malformed_frame_logged_and_dropped_witness :
  exists s',
    @Backoff.step Scenario.browser Scenario.backoff_options
      Scenario.backoff_connected (Ev_message 0%nat "[1, 2") = Some s'
    /\ Backoff.status (Backoff.store s') = Backoff.connected
    /\ calls (Backoff.host s') = []
    /\ console (Backoff.host s') = ["Failed to parse WebSocket message:"].
Proof.
  destruct (proj1 (@malformed_frame_logged_and_dropped Scenario.browser
                     "[1, 2" "SyntaxError" 0%nat eq_refl)
              Scenario.backoff_options Scenario.backoff_connected eq_refl)
    as (s' & Hstep & Hstatus & _ & Hcalls & Hconsole).
  exists s'. split; [exact Hstep|]. split; [exact Hstatus|]. split; [exact Hcalls|exact Hconsole].
Defined.

Lemma malformed_frame_leaves_state_witness :
  Backoff.store (@Backoff.onmessage Scenario.browser Scenario.backoff_options
                   "[1, 2" Scenario.backoff_connected)
  = Backoff.mkStore Backoff.connected (Some 0) None
  /\ @Fixed.store Scenario.browser
       (@Fixed.onmessage Scenario.browser Scenario.fixed_options
          "[1, 2" Scenario.fixed_connected)
     = Fixed.mkStore Fixed.connected (Some 0).
Proof.
  pose proof (@malformed_frame_leaves_state Scenario.browser "[1, 2" "SyntaxError" eq_refl)
    as [HB HF].
  split.
  - exact (proj1 (proj2 (HB Scenario.backoff_options Scenario.backoff_connected))).
  - exact (proj1 (proj2 (HF Scenario.fixed_options Scenario.fixed_connected))).
Defined.

(** ** Successful open *)

Section SuccessfulOpen.
Context `{Browser}.

(** C9. The open event of a connecting socket always runs [onopen], and the
    resulting connection state is: status connected, attempt counter 0,
    last-sync time equal to the clock reading, and (in the store that has
    one) error message null.  Nothing else of the hook changes: the refs,
    the timers and the other sockets are as before; the hook over
    [appStore] additionally calls [onOpen] when it is given. *)
Theorem open_sets_connected_state :
  forall id : nat,
    (forall (s : Backoff.State) (opts : Backoff.Options),
        can_open id (Backoff.host s) = true ->
        exists s',
          Backoff.step opts s (Ev_open id) = Some s'
          /\ Backoff.store s'
             = Backoff.mkStore Backoff.connected (Some (clock (Backoff.host s))) None
          /\ Backoff.reconnectAttempts s' = 0
          /\ Backoff.wsRef s' = Backoff.wsRef s
          /\ Backoff.reconnectTimeoutRef s' = Backoff.reconnectTimeoutRef s
          /\ Backoff.host s' = ws_transition id OPEN (Backoff.host s))
    /\ (forall (s : Fixed.State) (opts : Fixed.Options),
        can_open id (Fixed.host s) = true ->
        exists s',
          Fixed.step opts s (Ev_open id) = Some s'
          /\ Fixed.store s'
             = Fixed.mkStore Fixed.connected (Some (clock (Fixed.host s)))
          /\ Fixed.reconnectAttemptsRef s' = 0
          /\ Fixed.wsRef s' = Fixed.wsRef s
          /\ Fixed.reconnectTimeoutRef s' = Fixed.reconnectTimeoutRef s
          /\ Fixed.host s'
             = (if Fixed.onOpen opts
                then call CbOpen (ws_transition id OPEN (Fixed.host s))
                else ws_transition id OPEN (Fixed.host s))).
Proof.
  intros id. split; intros s opts Hopen; cbn [Backoff.step Fixed.step];
    rewrite Hopen; eexists; (split; [reflexivity|]).
  - assert (Hclock : clock (ws_transition id OPEN (Backoff.host s)) = clock (Backoff.host s)).
    { unfold ws_transition. destruct (sockets (Backoff.host s) !! id); reflexivity. }
    unfold Backoff.onopen. cbn. rewrite Hclock. auto.
  - assert (Hclock : clock (ws_transition id OPEN (Fixed.host s)) = clock (Fixed.host s)).
    { unfold ws_transition. destruct (sockets (Fixed.host s) !! id); reflexivity. }
    unfold Fixed.onopen, Fixed.call_if. cbn. rewrite Hclock.
    destruct (Fixed.onOpen opts); cbn; auto.
Qed.

End SuccessfulOpen.

Lemma open_sets_connected_state_witness :
  exists s',
    @Backoff.run Scenario.browser Scenario.backoff_options
      (Backoff.init 7) [Call_connect; Ev_open 0%nat] = Some s'
    /\ Backoff.store s' = Backoff.mkStore Backoff.connected (Some 7) None
    /\ Backoff.reconnectAttempts s' = 0.
Proof.
  destruct (proj1 (@open_sets_connected_state Scenario.browser 0%nat)
              (@Backoff.connect Scenario.browser Scenario.backoff_options (Backoff.init 7))
              Scenario.backoff_options eq_refl)
    as (s' & Hstep & Hstore & Hattempts & _).
  exists s'. split; [exact Hstep|]. split; [exact Hstore|exact Hattempts].
Defined.

(** ** Sending *)

Section Sending.
Context `{Browser}.

(** C8, as the code has it.  [send] looks at the socket held in [wsRef],
    not at the status in the store.  When that socket is not open (or there
    is none) the call returns normally with the hook exactly as it was:
    nothing is transmitted, nothing is queued, nothing is thrown.  When it
    is open and the message serialises to [text], [text] is appended to
    that socket's outgoing frames and nothing else changes. *)
Theorem send_transmits_iff_socket_open :
  forall message : JsValue,
    (forall s : Backoff.State,
        (is_open (Backoff.wsRef s) (Backoff.host s) = false ->
         Backoff.send message s = Normal s)
        /\ (is_open (Backoff.wsRef s) (Backoff.host s) = true ->
            forall text, JSON_stringify message = Normal text ->
            exists id w,
              Backoff.wsRef s = Some id
              /\ sockets (Backoff.host s) !! id = Some w
              /\ readyState w = OPEN
              /\ Backoff.send message s
                 = Normal (Backoff.with_host
                             (with_sockets
                                (<[id := mkWebSocket (url w) OPEN (outbox w ++ [text])]>
                                   (sockets (Backoff.host s)))
                                (Backoff.host s)) s)))
    /\ (forall s : Fixed.State,
        (is_open (Fixed.wsRef s) (Fixed.host s) = false ->
         Fixed.send message s = Normal s)
        /\ (is_open (Fixed.wsRef s) (Fixed.host s) = true ->
            forall text, JSON_stringify message = Normal text ->
            exists id w,
              Fixed.wsRef s = Some id
              /\ sockets (Fixed.host s) !! id = Some w
              /\ readyState w = OPEN
              /\ Fixed.send message s
                 = Normal (Fixed.with_host
                             (with_sockets
                                (<[id := mkWebSocket (url w) OPEN (outbox w ++ [text])]>
                                   (sockets (Fixed.host s)))
                                (Fixed.host s)) s))).
Proof.
  intros message. split; intros s; split.
  - intros Hclosed. unfold Backoff.send. rewrite Hclosed. reflexivity.
  - intros Hopen text Htext. unfold Backoff.send. rewrite Hopen, Htext.
    unfold is_open, readyState_of in Hopen.
    destruct (Backoff.wsRef s) as [id|]; [|discriminate].
    unfold ws_send.
    destruct (sockets (Backoff.host s) !! id) as [w|] eqn:Hw; [|discriminate].
    cbn in Hopen. destruct (readyState w) eqn:Hr; try discriminate.
    exists id, w. repeat split; assumption.
  - intros Hclosed. unfold Fixed.send. rewrite Hclosed. reflexivity.
  - intros Hopen text Htext. unfold Fixed.send. rewrite Hopen, Htext.
    unfold is_open, readyState_of in Hopen.
    destruct (Fixed.wsRef s) as [id|]; [|discriminate].
    unfold ws_send.
    destruct (sockets (Fixed.host s) !! id) as [w|] eqn:Hw; [|discriminate].
    cbn in Hopen. destruct (readyState w) eqn:Hr; try discriminate.
    exists id, w. repeat split; assumption.
Qed.

End Sending.

Lemma send_transmits_iff_socket_open_witness :
  @Backoff.send Scenario.browser "ping" (Backoff.init 0) = Normal (Backoff.init 0)
  /\ exists id w,
      Backoff.wsRef Scenario.backoff_connected = Some id
      /\ sockets (Backoff.host Scenario.backoff_connected) !! id = Some w
      /\ readyState w = OPEN
      /\ @Backoff.send Scenario.browser "ping" Scenario.backoff_connected
         = Normal (Backoff.with_host
                     (with_sockets
                        (<[id := mkWebSocket (url w) OPEN (outbox w ++ ["ping"])]>
                           (sockets (Backoff.host Scenario.backoff_connected)))
                        (Backoff.host Scenario.backoff_connected))
                     Scenario.backoff_connected).
Proof.
  pose proof (@send_transmits_iff_socket_open Scenario.browser "ping") as [HB _].
  split.
  - exact (proj1 (HB (Backoff.init 0)) eq_refl).
  - exact (proj2 (HB Scenario.backoff_connected) eq_refl "ping" eq_refl).
Defined.

(** The status in the store and the state of the current socket can
    disagree in reachable states, in both directions.  After
    [disconnect(); connect()] the close event of the old socket arrives
    when the new socket is already open: the status says disconnected and
    [send] transmits.  After two [connect()] calls in a row the first
    socket opens: the status says connected and [send] drops the message,
    because [wsRef] holds the second socket, which is still connecting. *)
Lemma send_follows_socket_not_status_counterexample :
  (exists s s',
      Scenario.fixed_run
        [Call_connect; Ev_open 0%nat; Call_disconnect; Call_connect; Ev_open 1%nat;
         Ev_close 0%nat] = Some s
      /\ Fixed.connectionStatus (Fixed.store s) = Fixed.disconnected
      /\ @Fixed.send Scenario.browser "ping" s = Normal s'
      /\ outbox <$> sockets (Fixed.host s') !! 1%nat = Some ["ping"])
  /\ (exists s,
        Scenario.fixed_run [Call_connect; Call_connect; Ev_open 0%nat] = Some s
        /\ Fixed.connectionStatus (Fixed.store s) = Fixed.connected
        /\ @Fixed.send Scenario.browser "ping" s = Normal s).
Proof.
  split.
  - eexists. eexists. split; [vm_compute; reflexivity|].
    split; [reflexivity|]. split; [vm_compute; reflexivity|]. reflexivity.
  - eexists. split; [vm_compute; reflexivity|]. split; reflexivity.
Qed.

(** ** Explicit teardown and the single-socket policy *)

(** C1, evaluated on the code.  A retry is pending (the first socket failed
    to open) when the component calls [connect()] again; the new socket
    opens; then the component calls [disconnect()].  The pending retry is
    cancelled and the socket is asked to close, but its handlers stay
    attached: when its close event arrives, [onclose] schedules a retry as
    for an unexpected close.  That retry fires and calls [connect],
    although the component has not called [connect()] since
    [disconnect()]: the hook over [appStore] publishes connecting, and both
    hooks create a third socket. *)
Theorem disconnect_then_close_event_reconnects :
  let before := [Call_connect; Ev_fail 0%nat; Call_connect; Ev_open 1%nat] in
  let after := [Call_disconnect; Ev_close 1%nat; Tick 3000; Ev_timer 1%nat] in
  forallb (fun e => negb (is_Call_connect e)) (tail after) = true
  /\ (exists s s1 s2,
        Scenario.fixed_run before = Some s
        /\ pending_timers (Fixed.host s) = 1%nat
        /\ Fixed.step Scenario.fixed_options s Call_disconnect = Some s1
        /\ pending_timers (Fixed.host s1) = 0%nat
        /\ Fixed.connectionStatus (Fixed.store s1) = Fixed.disconnected
        /\ Fixed.run Scenario.fixed_options s1 (tail after) = Some s2
        /\ Fixed.connectionStatus (Fixed.store s2) = Fixed.connecting
        /\ map readyState (sockets (Fixed.host s2)) = [CLOSED; CLOSED; CONNECTING])
  /\ (exists s s1 s2,
        Scenario.backoff_run before = Some s
        /\ pending_timers (Backoff.host s) = 1%nat
        /\ Backoff.step Scenario.backoff_options s Call_disconnect = Some s1
        /\ pending_timers (Backoff.host s1) = 0%nat
        /\ Backoff.status (Backoff.store s1) = Backoff.disconnected
        /\ Backoff.run Scenario.backoff_options s1 (tail after) = Some s2
        /\ Backoff.status (Backoff.store s2) = Backoff.reconnecting
        /\ map readyState (sockets (Backoff.host s2)) = [CLOSED; CLOSED; CONNECTING]).
Proof.
  cbv zeta. split; [reflexivity|]. split.
  - do 3 eexists. split; [vm_compute; reflexivity|]. split; [reflexivity|].
    split; [vm_compute; reflexivity|]. split; [reflexivity|]. split; [reflexivity|].
    split; [vm_compute; reflexivity|]. split; reflexivity.
  - do 3 eexists. split; [vm_compute; reflexivity|]. split; [reflexivity|].
    split; [vm_compute; reflexivity|]. split; [reflexivity|]. split; [reflexivity|].
    split; [vm_compute; reflexivity|]. split; reflexivity.
Qed.

(** C2, evaluated on the code.  [connect()] returns early only when the
    socket in [wsRef] is open.  Called twice before the first socket has
    opened, it creates a second socket and leaves the first one connecting
    with its handlers attached; both then open, and two transports are
    open at the same time.  For both hooks. *)
Theorem connect_twice_opens_two_sockets :
  let calls := [Call_connect; Call_connect; Ev_open 0%nat; Ev_open 1%nat] in
  (exists s,
      Scenario.backoff_run calls = Some s
      /\ map readyState (sockets (Backoff.host s)) = [OPEN; OPEN]
      /\ open_sockets (Backoff.host s) = 2%nat
      /\ Backoff.wsRef s = Some 1%nat)
  /\ (exists s,
        Scenario.fixed_run calls = Some s
        /\ map readyState (sockets (Fixed.host s)) = [OPEN; OPEN]
        /\ open_sockets (Fixed.host s) = 2%nat
        /\ Fixed.wsRef s = Some 1%nat).
Proof.
  cbv zeta. split; eexists; (split; [vm_compute; reflexivity|]); repeat split.
Qed.

(** ** Consecutive failures to open *)

(** With at most 5 retries, five consecutive failures to open do not end in
    error.  With exponential back-off the fifth failure schedules the fifth
    retry: the status is reconnecting and a timer is pending.  With the
    fixed interval the status is disconnected, the counter is 4 and the
    fifth retry is pending; once it fires the counter is 5 and the status
    is connecting. *)
Lemma five_failures_leave_retry_pending_counterexample :
  (exists s,
      Scenario.backoff_run (Backoff.failed_opens 5) = Some s
      /\ Backoff.status (Backoff.store s) = Backoff.reconnecting
      /\ Backoff.status (Backoff.store s) <> Backoff.error
      /\ pending_timers (Backoff.host s) = 1%nat)
  /\ (exists s,
        Scenario.fixed_run (Fixed.failed_opens Scenario.fixed_options 5) = Some s
        /\ Fixed.connectionStatus (Fixed.store s) = Fixed.disconnected
        /\ Fixed.connectionStatus (Fixed.store s) <> Fixed.error
        /\ Fixed.reconnectAttemptsRef s = 4
        /\ pending_timers (Fixed.host s) = 1%nat)
  /\ (exists s,
        Scenario.fixed_run
          (Fixed.failed_opens Scenario.fixed_options 5 ++ [Tick 3000; Ev_timer 4%nat])
        = Some s
        /\ Fixed.connectionStatus (Fixed.store s) = Fixed.connecting
        /\ Fixed.reconnectAttemptsRef s = 5
        /\ live_sockets (Fixed.host s) = 1%nat).
Proof.
  split; [|split]; eexists; (split; [vm_compute; reflexivity|]);
    repeat split; discriminate.
Qed.

Section ConsecutiveFailures.
Context `{Browser}.

(** C3, as the code has it.  The first attempt is not a retry, so the
    budget of [max] retries is used up by [max + 1] consecutive failures to
    open.  With exponential back-off ([max] is 5) the sixth failure leaves
    status error with the message of [attemptReconnect], the counter at 5,
    no timer pending and no socket live: the browser has no event left to
    raise, so nothing further happens until the component calls the hook.
    With the fixed interval, for every [maxReconnectAttempts] and every
    [reconnectInterval], failure number [max + 1] leaves the counter at [max]
    and the hook equally at rest; the status it ends in is disconnected,
    because [onclose] runs after [onerror]. *)
Theorem retries_end_after_max_plus_one_failures :
  (forall (opts : Backoff.Options) (t0 : Z),
      WebSocket_accepts (Backoff.wsBaseUrl opts) = true ->
      exists s,
        Backoff.run opts (Backoff.init t0) (Backoff.failed_opens 6) = Some s
        /\ Backoff.status (Backoff.store s) = Backoff.error
        /\ Backoff.errorMessage (Backoff.store s) = Some "Max reconnection attempts reached"
        /\ Backoff.reconnectAttempts s = 5
        /\ quiescent (Backoff.host s)
        /\ (forall e, is_browser_event e = true -> Backoff.step opts s e = None))
  /\ (forall (opts : Fixed.Options) (t0 : Z),
        WebSocket_accepts (Fixed.wsUrl opts) = true ->
        exists s,
          Fixed.run opts (Fixed.init t0)
            (Fixed.failed_opens opts (S (Z.to_nat (Fixed.maxReconnectAttempts opts))))
          = Some s
          /\ Fixed.connectionStatus (Fixed.store s) = Fixed.disconnected
          /\ Fixed.reconnectAttemptsRef s = Z.max 0 (Fixed.maxReconnectAttempts opts)
          /\ quiescent (Fixed.host s)
          /\ (forall e, is_browser_event e = true -> Fixed.step opts s e = None)).
Proof.
  split.
  - intros opts t0 Hurl.
    destruct (Backoff_connect_attempting opts Hurl t0) as (s0 & Hstep0 & Hk0 & _).
    destruct (Backoff_retry_rounds opts Hurl 5 0 s0 Hk0) as (s1 & Hrun1 & Hk1 & _);
      [unfold Backoff.maxReconnectAttempts; lia|].
    destruct (Backoff_last_failure opts (0 + 5) s1 Hk1)
      as (s2 & Hstep2 & Hstatus & Hmsg & Hn & Hq);
      [unfold Backoff.maxReconnectAttempts; lia|].
    exists s2. split.
    + unfold Backoff.failed_opens. cbn [Backoff.run]. rewrite Hstep0.
      rewrite Backoff_run_app, Hrun1. cbn [Backoff.run]. cbn [Nat.add] in Hstep2.
      rewrite Hstep2. reflexivity.
    + repeat split; try assumption.
      * apply Hq.
      * apply Hq.
      * intros e He. apply Backoff_quiescent_stuck; assumption.
  - intros opts t0 Hurl.
    set (m := Z.to_nat (Fixed.maxReconnectAttempts opts)).
    destruct (Fixed_connect_attempting opts Hurl t0) as (s0 & Hstep0 & Hk0 & _).
    destruct (Fixed_retry_rounds opts Hurl m 0 s0 Hk0) as (s1 & Hrun1 & Hk1 & _);
      [subst m; lia|].
    destruct (Fixed_last_failure opts (0 + m) s1 Hk1)
      as (s2 & Hstep2 & Hstatus & Hn & Hq);
      [subst m; lia|].
    exists s2. split.
    + unfold Fixed.failed_opens. cbn [Fixed.run]. rewrite Hstep0.
      rewrite Fixed_run_app, Hrun1. cbn [Fixed.run]. cbn [Nat.add] in Hstep2.
      rewrite Hstep2. reflexivity.
    + repeat split; try assumption.
      * rewrite Hn. subst m. lia.
      * apply Hq.
      * apply Hq.
      * intros e He. apply Fixed_quiescent_stuck; assumption.
Qed.

(** C4, as the code has it.  When the socket fails to open twice and then
    opens, the statuses published are, in order: with exponential back-off
    error, disconnected, reconnecting for each failure and then connected
    (this hook has no connecting status); with the fixed interval
    connecting before each attempt, error and disconnected after each
    failure, and connected at the end (this hook has no reconnecting
    status).  In both the attempt counter is 0 at the end. *)
Theorem two_failures_then_open_statuses :
  (forall (opts : Backoff.Options) (t0 : Z),
      WebSocket_accepts (Backoff.wsBaseUrl opts) = true ->
      exists s,
        Backoff.run opts (Backoff.init t0) (Backoff.fails_then_opens 2) = Some s
        /\ Backoff.statusLog s
           = [Backoff.error; Backoff.disconnected; Backoff.reconnecting;
              Backoff.error; Backoff.disconnected; Backoff.reconnecting;
              Backoff.connected]
        /\ Backoff.status (Backoff.store s) = Backoff.connected
        /\ Backoff.reconnectAttempts s = 0)
  /\ (forall (opts : Fixed.Options) (t0 : Z),
        WebSocket_accepts (Fixed.wsUrl opts) = true ->
        2 <= Fixed.maxReconnectAttempts opts ->
        exists s,
          Fixed.run opts (Fixed.init t0) (Fixed.fails_then_opens opts 2) = Some s
          /\ Fixed.statusLog s
             = [Fixed.connecting; Fixed.error; Fixed.disconnected;
                Fixed.connecting; Fixed.error; Fixed.disconnected;
                Fixed.connecting; Fixed.connected]
          /\ Fixed.connectionStatus (Fixed.store s) = Fixed.connected
          /\ Fixed.reconnectAttemptsRef s = 0).
Proof.
  split.
  - intros opts t0 Hurl.
    destruct (Backoff_connect_attempting opts Hurl t0) as (s0 & Hstep0 & Hk0 & Hlog0).
    destruct (Backoff_retry_rounds opts Hurl 2 0 s0 Hk0) as (s1 & Hrun1 & Hk1 & Hlog1);
      [unfold Backoff.maxReconnectAttempts; lia|].
    destruct (Backoff_open_attempt opts (0 + 2) s1 Hk1)
      as (s2 & Hstep2 & Hstatus & Hn & Hlog2).
    exists s2. split.
    + unfold Backoff.fails_then_opens. cbn [Backoff.run]. rewrite Hstep0.
      rewrite Backoff_run_app, Hrun1. cbn [Backoff.run]. cbn [Nat.add] in Hstep2.
      rewrite Hstep2. reflexivity.
    + rewrite Hlog2, Hlog1, Hlog0. repeat split; assumption.
  - intros opts t0 Hurl Hmax.
    destruct (Fixed_connect_attempting opts Hurl t0) as (s0 & Hstep0 & Hk0 & Hlog0).
    destruct (Fixed_retry_rounds opts Hurl 2 0 s0 Hk0) as (s1 & Hrun1 & Hk1 & Hlog1);
      [lia|].
    destruct (Fixed_open_attempt opts (0 + 2) s1 Hk1)
      as (s2 & Hstep2 & Hstatus & Hn & Hlog2).
    exists s2. split.
    + unfold Fixed.fails_then_opens. cbn [Fixed.run]. rewrite Hstep0.
      rewrite Fixed_run_app, Hrun1. cbn [Fixed.run]. cbn [Nat.add] in Hstep2.
      rewrite Hstep2. reflexivity.
    + rewrite Hlog2, Hlog1, Hlog0. repeat split; assumption.
Qed.

End ConsecutiveFailures.

Lemma retries_end_after_max_plus_one_failures_witness :
  (exists s,
      Scenario.backoff_run (Backoff.failed_opens 6) = Some s
      /\ Backoff.status (Backoff.store s) = Backoff.error
      /\ Backoff.reconnectAttempts s = 5)
  /\ (exists s,
        Scenario.fixed_run (Fixed.failed_opens Scenario.fixed_options 6) = Some s
        /\ Fixed.connectionStatus (Fixed.store s) = Fixed.disconnected
        /\ Fixed.reconnectAttemptsRef s = 5).
Proof.
  pose proof (@retries_end_after_max_plus_one_failures Scenario.browser) as [HB HF].
  split.
  - destruct (HB Scenario.backoff_options 0 eq_refl) as (s & Hrun & Hstatus & _ & Hn & _).
    exists s. split; [exact Hrun|]. split; [exact Hstatus|exact Hn].
  - destruct (HF Scenario.fixed_options 0 eq_refl) as (s & Hrun & Hstatus & Hn & _).
    exists s. split; [exact Hrun|]. split; [exact Hstatus|exact Hn].
Defined.

(** Neither hook shows the sequence connecting, reconnecting, connecting,
    reconnecting, connecting, connected: one never publishes connecting,
    the other never publishes reconnecting, and both publish error and
    disconnected on each failure. *)
Lemma two_failures_then_open_statuses_counterexample :
  (exists s,
      Scenario.backoff_run (Backoff.fails_then_opens 2) = Some s
      /\ map Backoff.status_name (Backoff.statusLog s)
         = ["error"; "disconnected"; "reconnecting";
            "error"; "disconnected"; "reconnecting"; "connected"]
      /\ map Backoff.status_name (Backoff.statusLog s) <> Scenario.expected_status_sequence)
  /\ (exists s,
        Scenario.fixed_run (Fixed.fails_then_opens Scenario.fixed_options 2) = Some s
        /\ map Fixed.status_name (Fixed.statusLog s)
           = ["connecting"; "error"; "disconnected";
              "connecting"; "error"; "disconnected"; "connecting"; "connected"]
        /\ map Fixed.status_name (Fixed.statusLog s) <> Scenario.expected_status_sequence).
Proof.
  split; eexists; (split; [vm_compute; reflexivity|]); split;
    [reflexivity|discriminate|reflexivity|discriminate].
Qed.

Lemma two_failures_then_open_statuses_witness :
  (exists s,
      Scenario.backoff_run (Backoff.fails_then_opens 2) = Some s
      /\ Backoff.statusLog s
         = [Backoff.error; Backoff.disconnected; Backoff.reconnecting;
            Backoff.error; Backoff.disconnected; Backoff.reconnecting;
            Backoff.connected]
      /\ Backoff.reconnectAttempts s = 0)
  /\ (exists s,
        Scenario.fixed_run (Fixed.fails_then_opens Scenario.fixed_options 2) = Some s
        /\ Fixed.statusLog s
           = [Fixed.connecting; Fixed.error; Fixed.disconnected;
              Fixed.connecting; Fixed.error; Fixed.disconnected;
              Fixed.connecting; Fixed.connected]
        /\ Fixed.reconnectAttemptsRef s = 0).
Proof.
  pose proof (@two_failures_then_open_statuses Scenario.browser) as [HB HF].
  split.
  - destruct (HB Scenario.backoff_options 0 eq_refl) as (s & Hrun & Hlog & _ & Hn).
    exists s. split; [exact Hrun|]. split; [exact Hlog|exact Hn].
  - destruct (HF Scenario.fixed_options 0 eq_refl ltac:(vm_compute; discriminate))
      as (s & Hrun & Hlog & _ & Hn).
    exists s. split; [exact Hrun|]. split; [exact Hlog|exact Hn].
Defined.

(** ** The attempt counter and the last-sync time *)

Section CounterAndSync.
Context `{Browser}.

(** C5.  For every step [s -> s'] out of a reachable state, in both hooks:
    unless the step ends with status connected, the attempt counter does
    not decrease (in particular while the status is reconnecting or
    error); the open event of a socket ends with status connected and the
    counter at 0; the counter decreases only on such a step, and the status
    turns to connected only on such a step; the last-sync time does not
    move backward, the wall clock read by [new Date()] being monotone. *)
Theorem attempts_and_last_sync_monotone :
  (forall (opts : Backoff.Options) (s s' : Backoff.State) (e : Event),
      Backoff.reachable opts s ->
      Backoff.step opts s e = Some s' ->
      (Backoff.status (Backoff.store s') <> Backoff.connected ->
       Backoff.reconnectAttempts s <= Backoff.reconnectAttempts s')
      /\ ((exists id, e = Ev_open id) ->
          Backoff.status (Backoff.store s') = Backoff.connected
          /\ Backoff.reconnectAttempts s' = 0)
      /\ (Backoff.reconnectAttempts s' < Backoff.reconnectAttempts s ->
          exists id, e = Ev_open id)
      /\ (Backoff.status (Backoff.store s') = Backoff.connected ->
          Backoff.status (Backoff.store s) <> Backoff.connected ->
          exists id, e = Ev_open id)
      /\ date_le (Backoff.lastSync (Backoff.store s)) (Backoff.lastSync (Backoff.store s')))
  /\ (forall (opts : Fixed.Options) (s s' : Fixed.State) (e : Event),
        Fixed.reachable opts s ->
        Fixed.step opts s e = Some s' ->
        (Fixed.connectionStatus (Fixed.store s') <> Fixed.connected ->
         Fixed.reconnectAttemptsRef s <= Fixed.reconnectAttemptsRef s')
        /\ ((exists id, e = Ev_open id) ->
            Fixed.connectionStatus (Fixed.store s') = Fixed.connected
            /\ Fixed.reconnectAttemptsRef s' = 0)
        /\ (Fixed.reconnectAttemptsRef s' < Fixed.reconnectAttemptsRef s ->
            exists id, e = Ev_open id)
        /\ (Fixed.connectionStatus (Fixed.store s') = Fixed.connected ->
            Fixed.connectionStatus (Fixed.store s) <> Fixed.connected ->
            exists id, e = Ev_open id)
        /\ date_le (Fixed.lastSyncTime (Fixed.store s))
             (Fixed.lastSyncTime (Fixed.store s'))).
Proof.
  assert (Hdec : forall e : Event, (exists id, e = Ev_open id) \/ (forall id, e <> Ev_open id)).
  { intros [] ; first [left; eexists; reflexivity | right; intros id'; discriminate]. }
  split; intros opts s s' e Hreach Hstep.
  - destruct (Backoff_step_attempts opts s e s' Hstep) as [Hopen Hother].
    pose proof (Backoff_step_sync opts s e s' (Backoff_reachable_sync opts s Hreach) Hstep)
      as [_ Hsync].
    destruct (Hdec e) as [Hex|Hne].
    + destruct (Hopen Hex) as [Hst Hn].
      split; [intros; congruence|]. split; [auto|]. split; [auto|]. split; auto.
    + destruct (Hother Hne) as [Hle Hst].
      split; [auto|]. split; [|split; [|split]].
      * intros [id ->]. exfalso. exact (Hne id eq_refl).
      * intros Hlt. lia.
      * intros Hc Hnc. exfalso. auto.
      * exact Hsync.
  - destruct (Fixed_step_attempts opts s e s' Hstep) as [Hopen Hother].
    pose proof (Fixed_step_sync opts s e s' (Fixed_reachable_sync opts s Hreach) Hstep)
      as [_ Hsync].
    destruct (Hdec e) as [Hex|Hne].
    + destruct (Hopen Hex) as [Hst Hn].
      split; [intros; congruence|]. split; [auto|]. split; [auto|]. split; auto.
    + destruct (Hother Hne) as [Hle Hst].
      split; [auto|]. split; [|split; [|split]].
      * intros [id ->]. exfalso. exact (Hne id eq_refl).
      * intros Hlt. lia.
      * intros Hc Hnc. exfalso. auto.
      * exact Hsync.
Qed.

End CounterAndSync.

Lemma attempts_and_last_sync_monotone_witness :
  exists s',
    @Backoff.step Scenario.browser Scenario.backoff_options
      Scenario.backoff_connected (Ev_close 0%nat) = Some s'
    /\ Backoff.reconnectAttempts Scenario.backoff_connected <= Backoff.reconnectAttempts s'
    /\ date_le (Backoff.lastSync (Backoff.store Scenario.backoff_connected))
         (Backoff.lastSync (Backoff.store s')).
Proof.
  eexists. split; [vm_compute; reflexivity|].
  pose proof (proj1 (@attempts_and_last_sync_monotone Scenario.browser)
                Scenario.backoff_options Scenario.backoff_connected _ (Ev_close 0%nat)
                (ex_intro _ 0 (ex_intro _ [Call_connect; Ev_open 0%nat] eq_refl))
                eq_refl)
    as (Hmono & _ & _ & _ & Hsync).
  split; [apply Hmono; discriminate|exact Hsync].
Defined.

(** ** The retry delay and the bound on retries *)

(** With the counter at 0, below the maximum of 5, [attemptReconnect]
    schedules the retry after 2000 ms, not after
    [min(1000 * 2^0, 30000) = 1000] ms: the counter is incremented before
    the delay is computed from it. *)
Lemma first_retry_delay_counterexample :
  exists s,
    Scenario.backoff_run [Call_connect] = Some s
    /\ Backoff.reconnectAttempts s = 0
    /\ Backoff.reconnectAttempts s < Backoff.maxReconnectAttempts
    /\ delay <$> timers (Backoff.host (Backoff.attemptReconnect s)) = [2000]
    /\ Z.min (1000 * 2 ^ Backoff.reconnectAttempts s) 30000 = 1000.
Proof.
  eexists. split; [vm_compute; reflexivity|]. repeat split.
Qed.

Section RetryPolicy.
Context `{Browser}.

(** C7, as the code has it.  Exponential back-off: when the counter [a] is
    below 5, [attemptReconnect] increments it and schedules exactly one
    timer, whose delay is [min(1000 * 2^(a + 1), 30000)], the formula taken
    at the incremented counter; at 5 or above it schedules nothing.  Fixed
    interval: when the counter is below [maxReconnectAttempts], [onclose]
    schedules exactly one timer with delay [reconnectInterval] (3000 and 5
    by default); otherwise nothing.  The retries are bounded: in a run of
    the back-off hook in which no socket opens, at most
    [pending + (5 - a)] retry timers fire, whatever else happens; in a run
    of the other hook in which no socket opens and the component does not
    call [connect()], at most [retry_budget] retry timers fire. *)
Theorem retry_delay_and_budget :
  (forall s : Backoff.State,
      Backoff.reconnectAttempts s < Backoff.maxReconnectAttempts ->
      Backoff.reconnectAttempts (Backoff.attemptReconnect s)
      = Backoff.reconnectAttempts s + 1
      /\ timers (Backoff.host (Backoff.attemptReconnect s))
         = timers (Backoff.host s)
           ++ [mkTimer
                 (Z.min (1000 * 2 ^ (Backoff.reconnectAttempts s + 1)) 30000)
                 (clock (Backoff.host s)
                  + Z.max 0 (Z.min (1000 * 2 ^ (Backoff.reconnectAttempts s + 1)) 30000))
                 Pending])
  /\ (forall s : Backoff.State,
        Backoff.maxReconnectAttempts <= Backoff.reconnectAttempts s ->
        timers (Backoff.host (Backoff.attemptReconnect s)) = timers (Backoff.host s))
  /\ (forall (opts : Fixed.Options) (s : Fixed.State),
        Fixed.reconnectAttemptsRef s < Fixed.maxReconnectAttempts opts ->
        Fixed.reconnectAttemptsRef (Fixed.onclose opts s) = Fixed.reconnectAttemptsRef s
        /\ timers (Fixed.host (Fixed.onclose opts s))
           = timers (Fixed.host s)
             ++ [mkTimer (Fixed.reconnectInterval opts)
                   (clock (Fixed.host s) + Z.max 0 (Fixed.reconnectInterval opts))
                   Pending])
  /\ (forall (opts : Fixed.Options) (s : Fixed.State),
        Fixed.maxReconnectAttempts opts <= Fixed.reconnectAttemptsRef s ->
        timers (Fixed.host (Fixed.onclose opts s)) = timers (Fixed.host s))
  /\ (Fixed.reconnectInterval Fixed.default_options = 3000
      /\ Fixed.maxReconnectAttempts Fixed.default_options = 5
      /\ Backoff.maxReconnectAttempts = 5)
  /\ (forall (opts : Backoff.Options) (s s' : Backoff.State) (es : list Event),
        Backoff.run opts s es = Some s' ->
        forallb (fun e => negb (is_Ev_open e)) es = true ->
        (count is_Ev_timer es
         <= pending_timers (Backoff.host s)
            + Z.to_nat (Backoff.maxReconnectAttempts - Backoff.reconnectAttempts s))%nat)
  /\ (forall (opts : Fixed.Options) (s s' : Fixed.State) (es : list Event),
        Fixed.run opts s es = Some s' ->
        forallb (fun e => negb (is_Ev_open e) && negb (is_Call_connect e)) es = true ->
        (count is_Ev_timer es <= Fixed.retry_budget opts s)%nat).
Proof.
  repeat apply conj.
  - intros s Hlt. unfold Backoff.attemptReconnect.
    destruct (Z.leb_spec Backoff.maxReconnectAttempts (Backoff.reconnectAttempts s));
      [lia|]. cbn. split; reflexivity.
  - intros s Hge. unfold Backoff.attemptReconnect.
    destruct (Z.leb_spec Backoff.maxReconnectAttempts (Backoff.reconnectAttempts s));
      [reflexivity|lia].
  - intros opts s Hlt. unfold Fixed.onclose. cbn.
    destruct (Fixed.onClose opts); cbn;
      (destruct (Z.ltb_spec (Fixed.reconnectAttemptsRef s) (Fixed.maxReconnectAttempts opts));
       [|lia]); cbn; split; reflexivity.
  - intros opts s Hge. unfold Fixed.onclose. cbn.
    destruct (Fixed.onClose opts); cbn;
      (destruct (Z.ltb_spec (Fixed.reconnectAttemptsRef s) (Fixed.maxReconnectAttempts opts));
       [lia|]); reflexivity.
  - reflexivity.
  - reflexivity.
  - reflexivity.
  - intros opts s s' es Hrun Hno.
    pose proof (Backoff_run_budget opts es s s' Hrun Hno) as Hb.
    unfold Backoff.retry_budget in Hb. lia.
  - intros opts s s' es Hrun Hno.
    pose proof (Fixed_run_budget opts es s s' Hrun Hno). lia.
Qed.

End RetryPolicy.

Lemma retry_delay_and_budget_witness :
  timers (Backoff.host
            (Backoff.attemptReconnect
               (@Backoff.connect Scenario.browser Scenario.backoff_options (Backoff.init 0))))
  = [mkTimer 2000 2000 Pending]
  /\ (count (@is_Ev_timer Scenario.browser) (Backoff.failed_opens 6)
      <= pending_timers (@Backoff.host Scenario.browser (Backoff.init 0))
         + Z.to_nat (Backoff.maxReconnectAttempts
                     - @Backoff.reconnectAttempts Scenario.browser (Backoff.init 0)))%nat.
Proof.
  pose proof (@retry_delay_and_budget Scenario.browser)
    as (Hdelay & _ & _ & _ & _ & Hbound & _).
  split.
  - exact (proj2 (Hdelay (@Backoff.connect Scenario.browser Scenario.backoff_options
                            (Backoff.init 0))
                    ltac:(vm_compute; reflexivity))).
  - assert (Hrun : exists s, @Backoff.run Scenario.browser Scenario.backoff_options
                               (Backoff.init 0) (Backoff.failed_opens 6) = Some s)
      by (eexists; vm_compute; reflexivity).
    destruct Hrun as [s Hrun].
    refine (Hbound Scenario.backoff_options (Backoff.init 0) s (Backoff.failed_opens 6)
              Hrun _).
    vm_compute. reflexivity.
Defined.

(** * More of the hooks, the stores and their callers *)

(** ** More facts about the heaps *)

Section MoreHeapFacts.
Context `{Browser}.

Lemma is_open_timer_fired ref t h : is_open ref (timer_fired t h) = is_open ref h.
Proof. unfold is_open, readyState_of. rewrite sockets_timer_fired. reflexivity. Qed.

Lemma quiescent_not_open ref h : quiescent h -> is_open ref h = false.
Proof.
  intros Hq. destruct ref as [id|]; [|reflexivity].
  exact (proj1 (proj2 (quiescent_no_event h id Hq))).
Qed.

Lemma clearTimeout_idem t h : clearTimeout t (clearTimeout t h) = clearTimeout t h.
Proof.
  unfold clearTimeout at 2 3.
  destruct (timers h !! t) as [tm|] eqn:Ht.
  - destruct (tstate tm) eqn:Hs.
    + unfold clearTimeout. cbn.
      rewrite list_lookup_insert_eq by (apply lookup_lt_Some in Ht; exact Ht).
      reflexivity.
    + unfold clearTimeout. rewrite Ht, Hs. reflexivity.
    + unfold clearTimeout. rewrite Ht, Hs. reflexivity.
  - unfold clearTimeout. rewrite Ht. reflexivity.
Qed.

Lemma ws_close_idem id h : ws_close id (ws_close id h) = ws_close id h.
Proof.
  unfold ws_close at 2 3.
  destruct (sockets h !! id) as [w|] eqn:Hw.
  - destruct (readyState w) eqn:Hr;
      unfold ws_close; cbn;
      rewrite ?list_lookup_insert_eq by (apply lookup_lt_Some in Hw; exact Hw);
      rewrite ?Hw, ?Hr; reflexivity.
  - unfold ws_close. rewrite Hw. reflexivity.
Qed.

Lemma clearTimeout_ws_close t id h :
  clearTimeout t (ws_close id h) = ws_close id (clearTimeout t h).
Proof.
  destruct h as [socks tims clk cons cls].
  unfold clearTimeout, ws_close. cbn.
  destruct (socks !! id) as [w|] eqn:Hw; [destruct (readyState w) eqn:Hr|];
    (destruct (tims !! t) as [tm|] eqn:Ht; [destruct (tstate tm) eqn:Hs|]);
    cbn; rewrite ?Hw, ?Ht; cbn; rewrite ?Hr, ?Hs; reflexivity.
Qed.



End MoreHeapFacts.

(** ** Frames that parse *)

Section Delivery.
Context `{Browser}.

(** X1.  A text frame that [JSON.parse] accepts, on an open socket: the
    last-sync time becomes the clock reading; the [onMessage] handler, when
    one is given, is called exactly once, with the parsed value; if the
    handler throws, the exception is caught and logged like a parse
    failure, the last-sync time staying updated.  The status, the attempt
    counter, the refs, the sockets and the timers are unchanged.  For both
    hooks. *)
Theorem well_formed_frame_delivered :
  forall (data : string) (message : JsValue) (id : nat),
    JSON_parse data = Normal message ->
    (forall (opts : Backoff.Options) (s : Backoff.State),
        can_receive id (Backoff.host s) = true ->
        exists s',
          Backoff.step opts s (Ev_message id data) = Some s'
          /\ Backoff.store s'
             = Backoff.mkStore (Backoff.status (Backoff.store s))
                 (Some (clock (Backoff.host s)))
                 (Backoff.errorMessage (Backoff.store s))
          /\ Backoff.statusLog s' = Backoff.statusLog s
          /\ Backoff.reconnectAttempts s' = Backoff.reconnectAttempts s
          /\ Backoff.wsRef s' = Backoff.wsRef s
          /\ Backoff.reconnectTimeoutRef s' = Backoff.reconnectTimeoutRef s
          /\ sockets (Backoff.host s') = sockets (Backoff.host s)
          /\ timers (Backoff.host s') = timers (Backoff.host s)
          /\ calls (Backoff.host s')
             = calls (Backoff.host s)
               ++ match Backoff.onMessage opts with
                  | Some _ => [CbMessage message]
                  | None => []
                  end
          /\ console (Backoff.host s')
             = console (Backoff.host s)
               ++ match Backoff.onMessage opts with
                  | Some handler =>
                      match handler message with
                      | Normal _ => []
                      | Throw _ => ["Failed to parse WebSocket message:"]
                      end
                  | None => []
                  end)
    /\ (forall (opts : Fixed.Options) (s : Fixed.State),
        can_receive id (Fixed.host s) = true ->
        exists s',
          Fixed.step opts s (Ev_message id data) = Some s'
          /\ Fixed.store s'
             = Fixed.mkStore (Fixed.connectionStatus (Fixed.store s))
                 (Some (clock (Fixed.host s)))
          /\ Fixed.statusLog s' = Fixed.statusLog s
          /\ Fixed.reconnectAttemptsRef s' = Fixed.reconnectAttemptsRef s
          /\ Fixed.wsRef s' = Fixed.wsRef s
          /\ Fixed.reconnectTimeoutRef s' = Fixed.reconnectTimeoutRef s
          /\ sockets (Fixed.host s') = sockets (Fixed.host s)
          /\ timers (Fixed.host s') = timers (Fixed.host s)
          /\ calls (Fixed.host s')
             = calls (Fixed.host s)
               ++ match Fixed.onMessage opts with
                  | Some _ => [CbMessage message]
                  | None => []
                  end
          /\ console (Fixed.host s')
             = console (Fixed.host s)
               ++ match Fixed.onMessage opts with
                  | Some handler =>
                      match handler message with
                      | Normal _ => []
                      | Throw _ => ["Failed to parse WebSocket message:"]
                      end
                  | None => []
                  end).
Proof.
  intros data message id Hparse. split; intros opts s Hrecv;
    cbn [Backoff.step Fixed.step]; rewrite Hrecv; eexists; (split; [reflexivity|]).
  - unfold Backoff.onmessage. rewrite Hparse.
    destruct (Backoff.onMessage opts) as [handler|]; cbn;
      [destruct (handler message)|]; cbn; rewrite ?app_nil_r; repeat split.
  - unfold Fixed.onmessage. rewrite Hparse.
    destruct (Fixed.onMessage opts) as [handler|]; cbn;
      [destruct (handler message)|]; cbn; rewrite ?app_nil_r; repeat split.
Qed.

End Delivery.

Lemma well_formed_frame_delivered_witness :
  exists s',
    @Backoff.step Scenario.browser Scenario.backoff_options
      (@Backoff.with_host Scenario.browser
         (with_clock 500 (Backoff.host Scenario.backoff_connected))
         Scenario.backoff_connected)
      (Ev_message 0%nat "{}") = Some s'
    /\ Backoff.lastSync (Backoff.store s') = Some 500
    /\ Backoff.status (Backoff.store s') = Backoff.connected.
Proof.
  destruct (proj1 (@well_formed_frame_delivered Scenario.browser "{}" "{}" 0%nat eq_refl)
              Scenario.backoff_options
              (@Backoff.with_host Scenario.browser
                 (with_clock 500 (Backoff.host Scenario.backoff_connected))
                 Scenario.backoff_connected)
              eq_refl)
    as (s' & Hstep & Hstore & _).
  exists s'. split; [exact Hstep|]. rewrite Hstore. split; reflexivity.
Defined.

(** ** Bounds on the counter and on the delay *)

Section CounterBounds.
Context `{Browser}.

(** X2.  In every reachable state of the hook with exponential back-off
    the attempt counter is between 0 and 5; in the hook with the fixed
    interval it is never negative. *)
Theorem attempt_counter_bounds :
  (forall (opts : Backoff.Options) (s : Backoff.State),
      Backoff.reachable opts s ->
      0 <= Backoff.reconnectAttempts s <= Backoff.maxReconnectAttempts)
  /\ (forall (opts : Fixed.Options) (s : Fixed.State),
        Fixed.reachable opts s -> 0 <= Fixed.reconnectAttemptsRef s).
Proof.
  split; intros opts.
  - apply Backoff_reachable_ind.
    + intros t0. cbn. unfold Backoff.maxReconnectAttempts. lia.
    + intros s e s' Hs Hstep. destruct s as [h ws tr n [st ls em] lg]. cbn in Hs.
      unfold Backoff.maxReconnectAttempts in *.
      destruct e; cbn [Backoff.step] in Hstep;
        unfold Backoff.connect, Backoff.disconnect, Backoff.send, Backoff.onopen,
          Backoff.onmessage, Backoff.onclose, Backoff.onerror, Backoff.on_timer,
          Backoff.connect, Backoff.attemptReconnect, WebSocket_new, setTimeout,
          Backoff.maxReconnectAttempts in Hstep;
        cbn in Hstep; simplify_eq/=; repeat (case_match; simplify_eq/=); lia.
  - apply Fixed_reachable_ind.
    + intros t0. cbn. lia.
    + intros s e s' Hs Hstep. destruct s as [h ws n tr [st ls] lg]. cbn in Hs.
      destruct e; cbn [Fixed.step] in Hstep;
        unfold Fixed.connect, Fixed.disconnect, Fixed.send, Fixed.onopen,
          Fixed.onmessage, Fixed.onclose, Fixed.onerror, Fixed.on_timer,
          Fixed.connect, WebSocket_new, setTimeout in Hstep;
        cbn in Hstep; simplify_eq/=; repeat (case_match; simplify_eq/=); lia.
Qed.

End CounterBounds.

Lemma attempt_counter_bounds_witness :
  0 <= Backoff.reconnectAttempts Samples.backoff_exhausted <= Backoff.maxReconnectAttempts.
Proof.
  apply (proj1 (@attempt_counter_bounds Scenario.browser) Scenario.backoff_options).
  exists 0, (Backoff.failed_opens 6). vm_compute. reflexivity.
Defined.

(** X3.  The delay [Math.min(1000 * Math.pow(2, n), 30000)] of the
    back-off, for a counter [n >= 0]: it is at least 1000 and at most 30000
    milliseconds, it does not decrease when the counter grows, and from 5
    on it is the cap. *)
Theorem backoff_delay_bounds :
  forall n m : Z,
    0 <= n -> n <= m ->
    1000 <= Backoff.backoff_delay n
    /\ Backoff.backoff_delay n <= Backoff.backoff_delay m
    /\ Backoff.backoff_delay m <= 30000
    /\ (5 <= n -> Backoff.backoff_delay n = 30000).
Proof.
  intros n m Hn Hnm. unfold Backoff.backoff_delay.
  assert (H1 : 1 <= 2 ^ n) by (apply (Z.pow_le_mono_r 2 0 n); lia).
  assert (H2 : 2 ^ n <= 2 ^ m) by (apply Z.pow_le_mono_r; lia).
  repeat split; try lia.
  intros H5. assert (H3 : 2 ^ 5 <= 2 ^ n) by (apply Z.pow_le_mono_r; lia).
  change (2 ^ 5) with 32 in H3. lia.
Qed.

Lemma backoff_delay_bounds_witness :
  1000 <= Backoff.backoff_delay 1
  /\ Backoff.backoff_delay 1 <= Backoff.backoff_delay 3
  /\ Backoff.backoff_delay 3 <= 30000.
Proof.
  destruct (backoff_delay_bounds 1 3 ltac:(lia) ltac:(lia)) as (H1 & H2 & H3 & _).
  split; [exact H1|]. split; [exact H2|exact H3].
Defined.

(** ** Retries, teardown and manual reconnection *)

Section StaleRetry.
Context `{Browser}.

(** X4.  A retry timer that fires while the socket in [wsRef] is open (the
    component has reconnected by hand in the meantime) creates no socket
    and publishes no status: [connect] returns at its guard.  With
    exponential back-off nothing but the timer changes; with the fixed
    interval the attempt counter is still incremented, so it can be above 0
    while the socket is open. *)
Theorem retry_fires_while_open :
  forall t : nat,
    (forall (opts : Backoff.Options) (s : Backoff.State),
        can_fire t (Backoff.host s) = true ->
        is_open (Backoff.wsRef s) (Backoff.host s) = true ->
        Backoff.step opts s (Ev_timer t)
        = Some (Backoff.with_host (timer_fired t (Backoff.host s)) s))
    /\ (forall (opts : Fixed.Options) (s : Fixed.State),
        can_fire t (Fixed.host s) = true ->
        is_open (Fixed.wsRef s) (Fixed.host s) = true ->
        Fixed.step opts s (Ev_timer t)
        = Some (Fixed.with_reconnectAttemptsRef (Fixed.reconnectAttemptsRef s + 1)
                  (Fixed.with_host (timer_fired t (Fixed.host s)) s))).
Proof.
  intros t. split; intros opts s Hfire Hopen; cbn [Backoff.step Fixed.step];
    rewrite Hfire.
  - unfold Backoff.on_timer, Backoff.connect. cbn.
    rewrite is_open_timer_fired, Hopen. reflexivity.
  - unfold Fixed.on_timer, Fixed.connect. cbn.
    rewrite is_open_timer_fired, Hopen. reflexivity.
Qed.

End StaleRetry.

Lemma retry_fires_while_open_witness :
  @Backoff.step Scenario.browser Scenario.backoff_options
    Samples.backoff_stale_retry (Ev_timer 0%nat)
  = Some (Backoff.with_host (timer_fired 0%nat (Backoff.host Samples.backoff_stale_retry))
            Samples.backoff_stale_retry).
Proof.
  exact (proj1 (@retry_fires_while_open Scenario.browser 0%nat)
           Scenario.backoff_options Samples.backoff_stale_retry eq_refl eq_refl).
Defined.

Section LoneRetry.
Context `{Browser}.

(** X5.  [disconnect()] while no socket is live and the only pending timer
    is the retry held in [reconnectTimeoutRef]: the status becomes
    disconnected, the counter is kept, and afterwards the browser has no
    event left to raise, so no reconnection can follow until the component
    calls the hook again.  For both hooks. *)
Theorem disconnect_cancels_lone_retry :
  forall (t : nat) (tm : Timer),
    tstate tm = Pending ->
    (forall (opts : Backoff.Options) (s : Backoff.State),
        live_sockets (Backoff.host s) = 0%nat ->
        pending_timers (Backoff.host s) = 1%nat ->
        Backoff.reconnectTimeoutRef s = Some t ->
        timers (Backoff.host s) !! t = Some tm ->
        exists s',
          Backoff.step opts s Call_disconnect = Some s'
          /\ Backoff.status (Backoff.store s') = Backoff.disconnected
          /\ Backoff.reconnectAttempts s' = Backoff.reconnectAttempts s
          /\ quiescent (Backoff.host s')
          /\ forall e, is_browser_event e = true -> Backoff.step opts s' e = None)
    /\ (forall (opts : Fixed.Options) (s : Fixed.State),
        live_sockets (Fixed.host s) = 0%nat ->
        pending_timers (Fixed.host s) = 1%nat ->
        Fixed.reconnectTimeoutRef s = Some t ->
        timers (Fixed.host s) !! t = Some tm ->
        exists s',
          Fixed.step opts s Call_disconnect = Some s'
          /\ Fixed.connectionStatus (Fixed.store s') = Fixed.disconnected
          /\ Fixed.reconnectAttemptsRef s' = Fixed.reconnectAttemptsRef s
          /\ quiescent (Fixed.host s')
          /\ forall e, is_browser_event e = true -> Fixed.step opts s' e = None).
Proof.
  intros t tm Hp. split; intros opts s Hlive Hone Href Ht; eexists;
    (split; [reflexivity|]).
  - destruct (Backoff_disconnect_at_rest s t tm Hlive Hone Href Ht Hp) as [Hq Hst].
    split; [exact Hst|]. split.
    + unfold Backoff.disconnect. rewrite Href. cbn. destruct (Backoff.wsRef s); reflexivity.
    + split; [exact Hq|]. intros e He. apply Backoff_quiescent_stuck; assumption.
  - destruct (Fixed_disconnect_at_rest s t tm Hlive Hone Href Ht Hp) as [Hq Hst].
    split; [exact Hst|]. split.
    + unfold Fixed.disconnect. rewrite Href. cbn. destruct (Fixed.wsRef s); reflexivity.
    + split; [exact Hq|]. intros e He. apply Fixed_quiescent_stuck; assumption.
Qed.

End LoneRetry.

Lemma disconnect_cancels_lone_retry_witness :
  exists s',
    @Backoff.step Scenario.browser Scenario.backoff_options
      Samples.backoff_retrying Call_disconnect = Some s'
    /\ Backoff.status (Backoff.store s') = Backoff.disconnected
    /\ quiescent (Backoff.host s').
Proof.
  destruct (proj1 (@disconnect_cancels_lone_retry Scenario.browser 0%nat
                     (mkTimer 2000 2000 Pending) eq_refl)
              Scenario.backoff_options Samples.backoff_retrying
              eq_refl eq_refl eq_refl eq_refl)
    as (s' & Hstep & Hstatus & _ & Hq & _).
  exists s'. split; [exact Hstep|]. split; [exact Hstatus|exact Hq].
Defined.

Section Idempotence.
Context `{Browser}.

(** X6.  Calling [disconnect()] a second time changes neither the sockets,
    nor the timers, nor the store, nor the refs, nor the counter; it only
    publishes disconnected once more.  For both hooks. *)
Theorem disconnect_twice :
  (forall s : Backoff.State,
      Backoff.host (Backoff.disconnect (Backoff.disconnect s))
      = Backoff.host (Backoff.disconnect s)
      /\ Backoff.store (Backoff.disconnect (Backoff.disconnect s))
         = Backoff.store (Backoff.disconnect s)
      /\ Backoff.wsRef (Backoff.disconnect (Backoff.disconnect s))
         = Backoff.wsRef (Backoff.disconnect s)
      /\ Backoff.reconnectAttempts (Backoff.disconnect (Backoff.disconnect s))
         = Backoff.reconnectAttempts (Backoff.disconnect s)
      /\ Backoff.statusLog (Backoff.disconnect (Backoff.disconnect s))
         = Backoff.statusLog (Backoff.disconnect s) ++ [Backoff.disconnected])
  /\ (forall s : Fixed.State,
        Fixed.host (Fixed.disconnect (Fixed.disconnect s))
        = Fixed.host (Fixed.disconnect s)
        /\ Fixed.store (Fixed.disconnect (Fixed.disconnect s))
           = Fixed.store (Fixed.disconnect s)
        /\ Fixed.wsRef (Fixed.disconnect (Fixed.disconnect s)) = None
        /\ Fixed.wsRef (Fixed.disconnect s) = None
        /\ Fixed.reconnectAttemptsRef (Fixed.disconnect (Fixed.disconnect s))
           = Fixed.reconnectAttemptsRef (Fixed.disconnect s)
        /\ Fixed.statusLog (Fixed.disconnect (Fixed.disconnect s))
           = Fixed.statusLog (Fixed.disconnect s) ++ [Fixed.disconnected]).
Proof.
  split; intros s.
  - destruct s as [h ws tr n [st ls em] lg]. unfold Backoff.disconnect. cbn.
    destruct tr as [t|], ws as [id|]; cbn;
      rewrite ?clearTimeout_ws_close, ?clearTimeout_idem, ?ws_close_idem;
      repeat split.
  - destruct s as [h ws n tr [st ls] lg]. unfold Fixed.disconnect. cbn.
    destruct tr as [t|], ws as [id|]; cbn;
      rewrite ?clearTimeout_ws_close, ?clearTimeout_idem, ?ws_close_idem;
      repeat split.
Qed.

End Idempotence.

Section ManualReconnect.
Context `{Browser}.

(** X7.  [connect()] does not reset the attempt counter.  Once the retries
    are used up and nothing is left running, a [connect()] by hand whose
    socket fails to open is not retried: no timer is created, the counter
    keeps its value and the hook is at rest again, with status error in the
    back-off hook and disconnected in the other. *)
Theorem manual_connect_after_exhaustion_not_retried :
  (forall (opts : Backoff.Options) (s : Backoff.State),
      WebSocket_accepts (Backoff.wsBaseUrl opts) = true ->
      quiescent (Backoff.host s) ->
      Backoff.maxReconnectAttempts <= Backoff.reconnectAttempts s ->
      exists s',
        Backoff.run opts s [Call_connect; Ev_fail (length (sockets (Backoff.host s)))]
        = Some s'
        /\ Backoff.reconnectAttempts s' = Backoff.reconnectAttempts s
        /\ Backoff.status (Backoff.store s') = Backoff.error
        /\ timers (Backoff.host s') = timers (Backoff.host s)
        /\ quiescent (Backoff.host s'))
  /\ (forall (opts : Fixed.Options) (s : Fixed.State),
        WebSocket_accepts (Fixed.wsUrl opts) = true ->
        quiescent (Fixed.host s) ->
        Fixed.maxReconnectAttempts opts <= Fixed.reconnectAttemptsRef s ->
        exists s',
          Fixed.run opts s [Call_connect; Ev_fail (length (sockets (Fixed.host s)))]
          = Some s'
          /\ Fixed.reconnectAttemptsRef s' = Fixed.reconnectAttemptsRef s
          /\ Fixed.connectionStatus (Fixed.store s') = Fixed.disconnected
          /\ timers (Fixed.host s') = timers (Fixed.host s)
          /\ quiescent (Fixed.host s')).
Proof.
  split; intros opts s Hurl Hq Hmax.
  - pose proof (quiescent_not_open (Backoff.wsRef s) _ Hq) as Hopen.
    destruct Hq as [Hlive Hpend]. unfold live_sockets, pending_timers in *.
    set (w := mkWebSocket (Backoff.wsBaseUrl opts) CONNECTING []).
    assert (Hconn : Backoff.connect opts s
                    = Backoff.with_wsRef (Some (length (sockets (Backoff.host s))))
                        (Backoff.with_host
                           (with_sockets (sockets (Backoff.host s) ++ [w])
                              (Backoff.host s)) s)).
    { unfold Backoff.connect, WebSocket_new. rewrite Hopen, Hurl. reflexivity. }
    cbn [Backoff.run]. change (Backoff.step opts s Call_connect) with (Some (Backoff.connect opts s)).
    cbn match. rewrite Hconn.
    assert (Hw : (sockets (Backoff.host s) ++ [w]) !! length (sockets (Backoff.host s))
                 = Some w).
    { rewrite lookup_app_r by lia. rewrite Nat.sub_diag. reflexivity. }
    erewrite Backoff_step_fail_exhausted; [| exact Hw | discriminate | exact Hmax].
    eexists. split; [reflexivity|]. cbn.
    repeat split; try assumption.
    unfold live_sockets. cbn.
    rewrite (count_insert_drop is_live _ _ _ w Hw) by reflexivity.
    rewrite count_snoc, Hlive. reflexivity.
  - pose proof (quiescent_not_open (Fixed.wsRef s) _ Hq) as Hopen.
    destruct Hq as [Hlive Hpend]. unfold live_sockets, pending_timers in *.
    set (w := mkWebSocket (Fixed.wsUrl opts) CONNECTING []).
    assert (Hconn : Fixed.connect opts s
                    = Fixed.with_wsRef (Some (length (sockets (Fixed.host s))))
                        (Fixed.with_host
                           (with_sockets (sockets (Fixed.host s) ++ [w])
                              (Fixed.host s))
                           (Fixed.setConnectionStatus Fixed.connecting s))).
    { unfold Fixed.connect, WebSocket_new. rewrite Hopen. cbn. rewrite Hurl. reflexivity. }
    cbn [Fixed.run]. change (Fixed.step opts s Call_connect) with (Some (Fixed.connect opts s)).
    cbn match. rewrite Hconn.
    assert (Hw : (sockets (Fixed.host s) ++ [w]) !! length (sockets (Fixed.host s))
                 = Some w).
    { rewrite lookup_app_r by lia. rewrite Nat.sub_diag. reflexivity. }
    erewrite Fixed_step_fail_exhausted; [| exact Hw | discriminate | exact Hmax].
    eexists. split; [reflexivity|]. cbn.
    repeat split; try assumption.
    unfold live_sockets. cbn.
    rewrite (count_insert_drop is_live _ _ _ w Hw) by reflexivity.
    rewrite count_snoc, Hlive. reflexivity.
Qed.

End ManualReconnect.

Lemma manual_connect_after_exhaustion_not_retried_witness :
  exists s',
    @Backoff.run Scenario.browser Scenario.backoff_options Samples.backoff_exhausted
      [Call_connect;
       Ev_fail (length (sockets (Backoff.host Samples.backoff_exhausted)))] = Some s'
    /\ Backoff.reconnectAttempts s' = Backoff.reconnectAttempts Samples.backoff_exhausted
    /\ Backoff.status (Backoff.store s') = Backoff.error
    /\ quiescent (Backoff.host s').
Proof.
  destruct (proj1 (@manual_connect_after_exhaustion_not_retried Scenario.browser)
              Scenario.backoff_options Samples.backoff_exhausted eq_refl
              (conj eq_refl eq_refl) ltac:(vm_compute; discriminate))
    as (s' & Hrun & Hn & Hstatus & _ & Hq).
  exists s'. split; [exact Hrun|]. split; [exact Hn|]. split; [exact Hstatus|exact Hq].
Defined.

Section ConnectedMeansOpen.
Context `{Browser}.


End ConnectedMeansOpen.


(** ** The configuration store and the theme *)

(** X9.  [setConfig] merges: a property of the new object wins, every other
    property keeps its value, so no property is ever lost; the empty object
    changes nothing; two calls in a row amount to one call with the merged
    object; the connection fields of the store are not touched. *)
Theorem setConfig_merges :
  forall (p q : gmap string string) (st : AppStore.AppState),
    (forall k,
        AppStore.config (AppStore.setConfig p st) !! k
        = match p !! k with
          | Some v => Some v
          | None => AppStore.config st !! k
          end)
    /\ AppStore.setConfig ∅ st = st
    /\ AppStore.setConfig q (AppStore.setConfig p st) = AppStore.setConfig (q ∪ p) st
    /\ AppStore.connection (AppStore.setConfig p st) = AppStore.connection st
    /\ dom (AppStore.config st) ⊆ dom (AppStore.config (AppStore.setConfig p st)).
Proof.
  intros p q [c conn]. unfold AppStore.setConfig. cbn. repeat split.
  - intros k. rewrite lookup_union. destruct (p !! k), (c !! k); reflexivity.
  - rewrite (left_id_L ∅ (∪)). reflexivity.
  - rewrite (assoc_L (∪)). reflexivity.
  - rewrite dom_union_L. set_solver.
Qed.

(** X10.  [toggleTheme] of the layout: dark becomes light and everything
    else, the system theme included, becomes dark, so the result is never
    the system theme; on a light or dark theme two toggles restore the
    state; the other properties and the connection fields are kept. *)
Theorem toggleTheme_flips :
  forall st : AppStore.AppState,
    (AppStore.config st !! "theme" = Some "dark" ->
     AppStore.config (AppStore.toggleTheme st) !! "theme" = Some "light")
    /\ (AppStore.config st !! "theme" <> Some "dark" ->
        AppStore.config (AppStore.toggleTheme st) !! "theme" = Some "dark")
    /\ (AppStore.config st !! "theme" = Some "dark"
        \/ AppStore.config st !! "theme" = Some "light" ->
        AppStore.toggleTheme (AppStore.toggleTheme st) = st)
    /\ (forall k, k <> "theme" ->
        AppStore.config (AppStore.toggleTheme st) !! k = AppStore.config st !! k)
    /\ AppStore.connection (AppStore.toggleTheme st) = AppStore.connection st.
Proof.
  intros [c conn]. unfold AppStore.toggleTheme, AppStore.setConfig. cbn.
  assert (Hth : forall v (m : gmap string string),
             ({["theme" := v]} ∪ m) !! "theme" = Some v).
  { intros v m. rewrite lookup_union, lookup_singleton_eq. destruct (m !! "theme"); reflexivity. }
  assert (Hother : forall v (m : gmap string string) k, k <> "theme" ->
             ({["theme" := v]} ∪ m) !! k = m !! k).
  { intros v m k Hk. rewrite lookup_union, lookup_singleton_ne by congruence.
    destruct (m !! k); reflexivity. }
  split; [|split; [|split; [|split]]].
  - intros Hd. rewrite Hth. destruct (decide (c !! "theme" = Some "dark")); congruence.
  - intros Hd. rewrite Hth. destruct (decide (c !! "theme" = Some "dark")); congruence.
  - intros Hd. f_equal. apply map_eq. intros k.
    destruct (decide (k = "theme")) as [->|Hk].
    + rewrite !Hth. cbn.
      destruct (decide (c !! "theme" = Some "dark")) as [Hc|Hc]; cbn.
      * rewrite Hc. reflexivity.
      * destruct Hd as [Hd|Hd]; [congruence|]. rewrite Hd. reflexivity.
    + rewrite !Hother by exact Hk. reflexivity.
  - intros k Hk. apply Hother. exact Hk.
  - reflexivity.
Qed.

Lemma toggleTheme_flips_witness :
  AppStore.config (AppStore.toggleTheme AppStore.initial) !! "theme" = Some "light"
  /\ AppStore.toggleTheme (AppStore.toggleTheme AppStore.initial) = AppStore.initial
  /\ AppStore.config (AppStore.toggleTheme AppStore.initial) !! "wsUrl"
     = Some "ws://localhost:8000/ws".
Proof.
  destruct (toggleTheme_flips AppStore.initial) as (Hdark & _ & Htwice & Hother & _).
  split; [exact (Hdark eq_refl)|]. split; [exact (Htwice (or_introl eq_refl))|].
  rewrite (Hother "wsUrl" ltac:(discriminate)). reflexivity.
Defined.

(** X11.  The theme effect, for a theme of its type: afterwards the class
    list holds the chosen class (the theme itself, or for the system theme
    dark or light as the media query says), holds no other of the two
    classes light and dark, and holds every other class exactly as before;
    running the effect again changes nothing. *)
Theorem apply_theme_one_class :
  forall (theme : string) (prefers_dark : bool) (classList : gset string),
    theme = "light" \/ theme = "dark" \/ theme = "system" ->
    let chosen :=
      if decide (theme = "system") then (if prefers_dark then "dark" else "light")
      else theme in
    let result := AppStore.apply_theme theme prefers_dark classList in
    chosen ∈ result
    /\ (forall c, (c = "light" \/ c = "dark") -> c ∈ result -> c = chosen)
    /\ (forall c, c <> "light" -> c <> "dark" -> (c ∈ result <-> c ∈ classList))
    /\ AppStore.apply_theme theme prefers_dark result = result.
Proof.
  intros theme prefers_dark classList Hth. cbv zeta. unfold AppStore.apply_theme.
  destruct Hth as [ -> | [ -> | -> ] ]; destruct prefers_dark;
    repeat case_decide; try discriminate;
    ((split; [|split; [|split]]);
     [ set_unfold; tauto
     | intros c Hc; set_unfold; intuition congruence
     | intros c H1 H2; set_unfold; intuition congruence
     | apply set_eq; intros c; set_unfold; intuition congruence ]).
Qed.

Lemma apply_theme_one_class_witness :
  "dark" ∈ AppStore.apply_theme "system" true {["light"]}
  /\ "light" ∉ AppStore.apply_theme "system" true {["light"]}.
Proof.
  destruct (apply_theme_one_class "system" true {["light"]}
              (or_intror (or_intror eq_refl)))
    as (Hin & Honly & _).
  split; [exact Hin|].
  intros Hl. discriminate (Honly "light" (or_introl eq_refl) Hl).
Defined.

(** ** The logs page *)

Section FilterFacts.
Context {A : Type} (f : A -> bool).

Lemma filter_sublist (l : list A) : sublist (List.filter f l) l.
Proof.
  induction l as [|x l IH]; cbn; [constructor|].
  destruct (f x); [apply sublist_skip|apply sublist_cons]; exact IH.
Qed.

Lemma filter_all (l : list A) :
  (forall x, f x = true) -> List.filter f l = l.
Proof.
  intros Hf. induction l as [|x l IH]; cbn; [reflexivity|]. rewrite Hf, IH. reflexivity.
Qed.

Lemma filter_idem (l : list A) :
  List.filter f (List.filter f l) = List.filter f l.
Proof.
  induction l as [|x l IH]; cbn; [reflexivity|].
  destruct (f x) eqn:Hx; cbn; rewrite ?Hx, IH; reflexivity.
Qed.

End FilterFacts.

Lemma Level_eqb_eq a b : LogsPage.Level_eqb a b = true <-> a = b.
Proof. destruct a, b; cbn; split; congruence. Qed.

Lemma level_name_inj a b : LogsPage.level_name a = LogsPage.level_name b -> a = b.
Proof. destruct a, b; cbn; congruence. Qed.

Section LogsPageFacts.
Variable toLowerCase : string -> string.
Variable includes : string -> string -> bool.

(** X12.  [filteredLogs]: the logs shown are a sublist of the logs fetched,
    in their order; each has the selected level and, when a text is given,
    contains it (case-folded) in its message or its id; every fetched log
    that matches is shown; filtering the result again gives the same list;
    with level [all] and no text every log is shown; before the first
    fetch nothing is. *)
Theorem filteredLogs_selects :
  forall (l : list LogsPage.LogEntry) (levelFilter : LogsPage.LogLevel) (text : string),
    let shown := LogsPage.filteredLogs toLowerCase includes (Some l) levelFilter text in
    sublist shown l
    /\ (forall log lv, In log shown -> levelFilter = LogsPage.only lv ->
        LogsPage.level log = lv)
    /\ (forall log, In log shown -> text <> "" ->
        includes (toLowerCase (LogsPage.message log)) (toLowerCase text) = true
        \/ includes (toLowerCase (LogsPage.id log)) (toLowerCase text) = true)
    /\ (forall log, In log l ->
        LogsPage.matches toLowerCase includes levelFilter text log = true ->
        In log shown)
    /\ LogsPage.filteredLogs toLowerCase includes (Some shown) levelFilter text = shown
    /\ LogsPage.filteredLogs toLowerCase includes (Some l) LogsPage.all "" = l
    /\ LogsPage.filteredLogs toLowerCase includes None levelFilter text = [].
Proof.
  intros l levelFilter text. cbv zeta. unfold LogsPage.filteredLogs.
  split; [apply filter_sublist|].
  split.
  { intros log lv Hin ->. apply filter_In in Hin as [_ Hm].
    unfold LogsPage.matches in Hm. apply andb_prop in Hm as [Hl _].
    apply Level_eqb_eq. exact Hl. }
  split.
  { intros log Hin Htext. apply filter_In in Hin as [_ Hm].
    unfold LogsPage.matches in Hm. apply andb_prop in Hm as [_ Ht].
    apply orb_prop in Ht as [Ht|Ht]; [|right; exact Ht].
    apply orb_prop in Ht as [Ht|Ht]; [|left; exact Ht].
    apply String.eqb_eq in Ht. contradiction. }
  split.
  { intros log Hin Hm. apply filter_In. split; assumption. }
  split; [apply filter_idem|].
  split; [|reflexivity].
  apply filter_all. intros log. reflexivity.
Qed.

End LogsPageFacts.

Lemma filteredLogs_selects_witness :
  LogsPage.filteredLogs Samples.lower Samples.contains (Some Samples.logs)
    (LogsPage.only LogsPage.error) "query"
  = [LogsPage.mkLogEntry "a2" "2024-01-01T00:01:00Z" LogsPage.error "Query FAILED" None]
  /\ forall log,
      In log (LogsPage.filteredLogs Samples.lower Samples.contains (Some Samples.logs)
                (LogsPage.only LogsPage.error) "query") ->
      LogsPage.level log = LogsPage.error.
Proof.
  split; [reflexivity|].
  intros log Hin.
  exact (proj1 (proj2 (filteredLogs_selects Samples.lower Samples.contains Samples.logs
                         (LogsPage.only LogsPage.error) "query"))
           log LogsPage.error Hin eq_refl).
Defined.

(** X13.  [toggleExpanded] flips the membership of the given id and of no
    other id; toggling the same id twice gives the set back. *)
Theorem toggleExpanded_flips :
  forall (id : string) (expanded : gset string),
    (id ∈ LogsPage.toggleExpanded id expanded <-> id ∉ expanded)
    /\ (forall other, other <> id ->
        (other ∈ LogsPage.toggleExpanded id expanded <-> other ∈ expanded))
    /\ LogsPage.toggleExpanded id (LogsPage.toggleExpanded id expanded) = expanded.
Proof.
  intros id expanded. unfold LogsPage.toggleExpanded.
  split; [|split].
  - case_decide; set_unfold; intuition congruence.
  - intros other Hne. case_decide; set_unfold; intuition congruence.
  - apply set_eq. intros x. destruct (decide (x = id)) as [->|Hx];
      repeat case_decide; set_unfold; intuition congruence.
Qed.

Lemma toggleExpanded_flips_witness :
  "log-1" ∈ LogsPage.toggleExpanded "log-0" {["log-1"]}.
Proof.
  apply (proj1 (proj2 (toggleExpanded_flips "log-0" {["log-1"]})) "log-1");
    [discriminate|].
  apply elem_of_singleton. reflexivity.
Defined.

Lemma foldl_count_level l : forall (acc : gmap string nat) (lv : LogsPage.Level),
  default 0%nat (foldl LogsPage.count_level acc l !! LogsPage.level_name lv)
  = (default 0%nat (acc !! LogsPage.level_name lv) + LogsPage.with_level lv l)%nat
  /\ dom (foldl LogsPage.count_level acc l)
     = dom acc ∪ list_to_set (map (fun log => LogsPage.level_name (LogsPage.level log)) l).
Proof.
  induction l as [|log l IH]; intros acc lv; cbn.
  - split; [unfold LogsPage.with_level; cbn; lia|].
    apply set_eq. intros x. set_unfold. tauto.
  - destruct (IH (LogsPage.count_level acc log) lv) as [IH1 IH2].
    rewrite IH1, IH2. unfold LogsPage.count_level, LogsPage.with_level. cbn.
    split.
    + destruct (LogsPage.Level_eqb (LogsPage.level log) lv) eqn:He.
      * apply Level_eqb_eq in He. subst lv. rewrite lookup_insert_eq. cbn. lia.
      * rewrite lookup_insert_ne; [reflexivity|].
        intros Hn. apply level_name_inj in Hn. apply Level_eqb_eq in Hn. congruence.
    + rewrite dom_insert_L. apply set_eq. intros x. set_unfold. tauto.
Qed.

(** X14.  [levelCounts]: the object has exactly the keys info, warn and
    error; under each is the number of fetched logs of that level; the three
    numbers add up to the number of logs; before the first fetch all three
    are 0. *)
Theorem levelCounts_counts :
  forall (l : list LogsPage.LogEntry),
    (forall lv,
        LogsPage.levelCounts (Some l) !! LogsPage.level_name lv
        = Some (LogsPage.with_level lv l))
    /\ dom (LogsPage.levelCounts (Some l)) = {["info"; "warn"; "error"]}
    /\ (LogsPage.with_level LogsPage.info l + LogsPage.with_level LogsPage.warn l
        + LogsPage.with_level LogsPage.error l = length l)%nat
    /\ (forall lv, LogsPage.levelCounts None !! LogsPage.level_name lv = Some 0%nat).
Proof.
  intros l. unfold LogsPage.levelCounts.
  assert (Hdom : dom (foldl LogsPage.count_level LogsPage.zero_counts l)
                 = {["info"; "warn"; "error"]}).
  { rewrite (proj2 (foldl_count_level l LogsPage.zero_counts LogsPage.info)).
    unfold LogsPage.zero_counts. rewrite !dom_insert_L, dom_empty_L.
    apply set_eq. intros k. rewrite elem_of_union, elem_of_list_to_set, list_elem_of_In, in_map_iff.
    split.
    - intros [Hk|(log & <- & _)]; [set_solver|].
      destruct (LogsPage.level log); cbn; set_solver.
    - intros Hk. left. set_solver. }
  split; [|split; [exact Hdom|split]].
  - intros lv.
    pose proof (proj1 (foldl_count_level l LogsPage.zero_counts lv)) as Hc.
    assert (Hin : LogsPage.level_name lv ∈ dom (foldl LogsPage.count_level LogsPage.zero_counts l)).
    { rewrite Hdom. destruct lv; cbn; set_solver. }
    apply elem_of_dom in Hin as [n Hn]. rewrite Hn in Hc. cbn in Hc.
    rewrite Hn. f_equal. rewrite Hc. destruct lv; reflexivity.
  - clear Hdom. unfold LogsPage.with_level. induction l as [|log l IH]; [reflexivity|].
    cbn [List.filter length]. destruct (LogsPage.level log); cbn [LogsPage.Level_eqb length]; lia.
  - intros lv. destruct lv; reflexivity.
Qed.

Section DisplayLogs.
Variable toISOString : Z -> string.

Lemma demo_ids now :
  map LogsPage.id (map (LogsPage.demo_log toISOString now) (seq 0 20))
  = (fun i : nat => "log-" +:+ pretty i) <$> seq 0 20.
Proof. rewrite map_map. reflexivity. Qed.

(** X15.  [displayLogs] is never empty, so the branch of the page for an
    empty list cannot be taken: it is the filtered list when that has an
    entry, and otherwise twenty demo entries with pairwise different ids,
    among which every level occurs whatever the level filter is. *)
Theorem displayLogs_never_empty :
  forall (now : Z) (filtered : list LogsPage.LogEntry),
    let shown := LogsPage.displayLogs toISOString now filtered in
    (0 < length shown)%nat
    /\ (filtered <> [] -> shown = filtered)
    /\ (filtered = [] ->
        length shown = 20%nat
        /\ NoDup (map LogsPage.id shown)
        /\ (forall lv, exists log, In log shown /\ LogsPage.level log = lv)).
Proof.
  intros now filtered. cbv zeta. unfold LogsPage.displayLogs.
  split; [|split].
  - destruct filtered; cbn; lia.
  - intros Hne. destruct filtered; [congruence|reflexivity].
  - intros ->. cbn [length Nat.ltb Nat.leb].
    split; [rewrite length_map, length_seq; reflexivity|].
    split.
    + rewrite demo_ids. apply NoDup_fmap_2; [|apply NoDup_seq].
      intros i j Hij. apply (inj (String.app "log-")) in Hij.
      apply (inj pretty) in Hij. exact Hij.
    + intros lv.
      exists (LogsPage.demo_log toISOString now
                match lv with
                | LogsPage.info => 0
                | LogsPage.warn => 1
                | LogsPage.error => 2
                end%nat).
      split; [|destruct lv; reflexivity].
      apply in_map, in_seq. destruct lv; lia.
Qed.

End DisplayLogs.

Lemma displayLogs_never_empty_witness :
  LogsPage.displayLogs (fun _ => "") 0 Samples.logs = Samples.logs
  /\ length (LogsPage.displayLogs (fun _ => "") 0 []) = 20%nat.
Proof.
  destruct (displayLogs_never_empty (fun _ => "") 0 Samples.logs) as (_ & Hsome & _).
  destruct (displayLogs_never_empty (fun _ => "") 0 []) as (_ & _ & Hnone).
  split; [exact (Hsome ltac:(discriminate))|exact (proj1 (Hnone eq_refl))].
Defined.

(** ** The message handler of the layout *)

(** X16.  The handler of the layout invalidates at most one query domain
    per message: [query] for type [data_update], [logs] for [log], [brain]
    for [brain_update], nothing for any other value.  The one message on
    which it throws is [null], on which reading [type] fails. *)
Theorem dashboard_invalidations :
  forall message : Dashboard.Json,
    match Dashboard.invalidations message with
    | Throw _ => message = Dashboard.JNull
    | Normal keys =>
        message <> Dashboard.JNull
        /\ (length keys <= 1)%nat
        /\ (Dashboard.type_is message "data_update" = Normal true <-> keys = [["query"]])
        /\ (Dashboard.type_is message "log" = Normal true <-> keys = [["logs"]])
        /\ (Dashboard.type_is message "brain_update" = Normal true <-> keys = [["brain"]])
    end.
Proof.
  intros message. unfold Dashboard.invalidations.
  destruct message as [|b|n|s|items|ps]; cbn; try reflexivity;
    try (repeat split; first [discriminate | lia]).
  destruct (Dashboard.property "type" ps) as [[|?|?|s|?|?]|]; cbn;
    try (repeat split; first [discriminate | lia]).
  destruct (String.eqb_spec s "data_update") as [->|H1]; cbn;
    [repeat split; first [discriminate | lia | reflexivity]|].
  destruct (String.eqb_spec s "log") as [->|H2]; cbn;
    [repeat split; first [discriminate | lia | reflexivity]|].
  destruct (String.eqb_spec s "brain_update") as [->|H3]; cbn;
    repeat split; first [discriminate | lia | reflexivity].
Qed.

Section DashboardFrames.
Variable parse : string -> Completion Dashboard.Json.
Variable stringify : Dashboard.Json -> Completion string.
Variable accepts : string -> bool.
Variable wsBaseUrl : string.

Local Abbreviation B := (Dashboard.browser parse stringify accepts).

(** X17.  A frame that parses, received by the hook of the layout: the
    last-sync time is updated, the status is kept, and the handler's
    invalidations (at most one) are made.  The frame [null] parses, the
    handler throws on it, and the hook logs it as a message it failed to
    parse; no other parsed frame is logged. *)
Theorem dashboard_frame_effects :
  forall (data : string) (message : Dashboard.Json) (id : nat)
      (s : Dashboard.State parse stringify accepts),
    parse data = Normal message ->
    @can_receive B id (Backoff.host s) = true ->
    exists s',
      Dashboard.step parse stringify accepts wsBaseUrl s (@Ev_message B id data) = Some s'
      /\ Backoff.lastSync (Backoff.store s') = Some (@clock B (Backoff.host s))
      /\ Backoff.status (Backoff.store s') = Backoff.status (Backoff.store s)
      /\ Dashboard.invalidated parse stringify accepts (Backoff.host s')
         = Dashboard.invalidated parse stringify accepts (Backoff.host s)
           ++ match Dashboard.invalidations message with
              | Normal keys => keys
              | Throw _ => []
              end
      /\ @console B (Backoff.host s')
         = @console B (Backoff.host s)
           ++ match message with
              | Dashboard.JNull => ["Failed to parse WebSocket message:"]
              | _ => []
              end.
Proof.
  intros data message id s Hparse Hrecv.
  unfold Dashboard.step. cbn [Backoff.step]. rewrite Hrecv. eexists. split; [reflexivity|].
  unfold Backoff.onmessage.
  change (@JSON_parse B data) with (parse data). rewrite Hparse.
  cbn [Dashboard.options Backoff.onMessage].
  unfold Dashboard.onMessage, Dashboard.invalidated.
  pose proof (dashboard_invalidations message) as Hinv.
  destruct (Dashboard.invalidations message) as [keys|e] eqn:Hk; cbn.
  - destruct Hinv as [Hne _].
    rewrite flat_map_app. cbn. rewrite Hk, !app_nil_r.
    repeat split. destruct message; first [congruence | symmetry; apply app_nil_r].
  - subst message. rewrite flat_map_app. cbn. rewrite !app_nil_r. repeat split.
Qed.

End DashboardFrames.

Lemma dashboard_frame_effects_witness :
  exists s',
    Dashboard.step Samples.parse_null Samples.stringify_none Samples.accept_all
      "ws://localhost:8000/ws" Samples.dashboard_connected
      (@Ev_message (Dashboard.browser Samples.parse_null Samples.stringify_none
                      Samples.accept_all) 0%nat "null") = Some s'
    /\ @console (Dashboard.browser Samples.parse_null Samples.stringify_none
                   Samples.accept_all) (Backoff.host s')
       = ["Failed to parse WebSocket message:"].
Proof.
  destruct (dashboard_frame_effects Samples.parse_null Samples.stringify_none
              Samples.accept_all "ws://localhost:8000/ws" "null" Dashboard.JNull 0%nat
              Samples.dashboard_connected eq_refl eq_refl)
    as (s' & Hstep & _ & _ & _ & Hconsole).
  exists s'. split; [exact Hstep|exact Hconsole].
Defined.
